(** * Conformance harness for a versioned configuration store

    A shallow embedding of [refactor_config.go] (package [mock]): the
    fixture factory [Make], the equality [Compare], and the two checks
    [CheckMapInvariant] and [CheckIstioConfigTypes] that drive a
    [model.ConfigStore] through a fixed sequence of operations.

    Go values are represented structurally, as [reflect.DeepEqual] sees
    them.  A map or a slice is an [option] ([None] is [nil]), a pointer to
    a message is an [option] of the message, a generated message carries
    its unexported state beside its exported fields, an [int] is a [Z] (no
    operation of the harness can overflow: the only arithmetic is [i++]
    below a bound [n] that is itself an [int]), and [map[string]string] is
    a [gmap string string].  Calls to the logger are left out. *)

From stdpp Require Import gmap strings list fin_maps pretty.
From Stdlib Require Strings.Byte.

#[local] Open Scope string_scope.
#[local] Open Scope Z_scope.
#[local] Open Scope list_scope.

(** ** Standard library values *)

(** [time.Time]: the wall and monotonic words and the location; the zero
    value [time.Time{}] has all of them zero. *)
Module time.
Record Time := { wall : Z; ext : Z; loc : option string }.
Definition zero : Time := {| wall := 0; ext := 0; loc := None |}.
#[global] Instance Time_eq_dec : EqDecision Time.
Proof. solve_decision. Defined.
End time.

(** Go's [error]: only the message matters to the harness. *)
Inductive error := errorString (msg : string).

#[global] Instance error_eq_dec : EqDecision error.
Proof. solve_decision. Defined.

(** ** Values of other packages *)

(** A Go value as package [reflect] walks it, for the payloads whose type
    the harness does not name: [Nil] is a nil pointer, slice or interface, a
    [Struct] lists its fields in the order of their declaration, the
    unexported ones included, and a [Slice] or a [Pointer] is not nil.
    Numbers are integers (enumerations included); maps, floating-point
    numbers and functions are not represented. *)
Module go.
#[local] Unset Elimination Schemes.
Inductive Value :=
| Nil
| Bool (b : bool)
| Int (n : Z)
| String (s : string)
| Struct (fields : list Value)
| Slice (elems : list Value)
| Pointer (v : Value).
End go.

#[global] Instance Value_eq_dec : EqDecision go.Value.
Proof.
  unfold EqDecision, Decision. fix IH 1. intros a b.
  pose proof (list_eq_dec (dec := IH)) as Hl.
  unfold EqDecision, Decision in Hl.
  destruct a as [|x|x|x|l|l|x], b as [|y|y|y|k|k|y];
    try (right; discriminate).
  - by left.
  - destruct (decide (x = y)) as [->|]; [by left|right; congruence].
  - destruct (decide (x = y)) as [->|]; [by left|right; congruence].
  - destruct (decide (x = y)) as [->|]; [by left|right; congruence].
  - destruct (Hl l k) as [->|]; [by left|right; congruence].
  - destruct (Hl l k) as [->|]; [by left|right; congruence].
  - destruct (IH x y) as [->|]; [by left|right; congruence].
Defined.

(** The unexported fields with which every message generated from a
    protocol-buffer definition begins, all of which [reflect.DeepEqual]
    compares.  [state] tells whether the message has been bound to the
    description of its type, which happens the first time the message is
    marshalled, unmarshalled or reflected on (two bound messages of one type
    point to the same description); [sizeCache] is the [int32] the
    marshaller leaves behind; [unknownFields] holds the bytes of the fields
    unmarshalling did not recognise.  A composite literal and [new] leave
    the three of them zero. *)
Module protoimpl.
Record t := {
  state : bool;
  sizeCache : Z;
  unknownFields : option (list Byte.byte)
}.

Definition zero : t :=
  {| state := false; sizeCache := 0; unknownFields := None |}.
End protoimpl.

#[global] Instance byte_eq_dec : EqDecision Byte.byte :=
  Strings.Byte.byte_eq_dec.
#[global] Instance protoimpl_eq_dec : EqDecision protoimpl.t.
Proof. solve_decision. Defined.

(** ** Example payloads (packages [networking], [authz], [api])

    The messages are declared outside this package.  Each is represented by
    its internal state and the exported fields the example values of the
    harness set, and stands for the message whose other exported fields are
    zero.  A slice is an [option] of a list ([None] is the nil slice, which
    [reflect.DeepEqual] tells from the empty one), a pointer to a message is
    an [option] of the message, so a slice of messages, which holds
    pointers, is a list of options; an enumeration is its [int32]. *)
Module networking.
Module Destination.
Record t := { internal : protoimpl.t; Host : string }.
End Destination.

Module HTTPRouteDestination.
Record t := {
  internal : protoimpl.t;
  Destination : option Destination.t;
  Weight : Z
}.
End HTTPRouteDestination.

Module HTTPRoute.
Record t := {
  internal : protoimpl.t;
  Route : option (list (option HTTPRouteDestination.t))
}.
End HTTPRoute.

Module VirtualService.
Record t := {
  internal : protoimpl.t;
  Hosts : option (list string);
  Http : option (list (option HTTPRoute.t))
}.
End VirtualService.

Definition ServiceEntry_Resolution := Z.
Definition ServiceEntry_NONE : ServiceEntry_Resolution := 0.

Module ServicePort.
Record t := {
  internal : protoimpl.t;
  Number : Z;
  Name : string;
  Protocol : string
}.
End ServicePort.

Module ServiceEntry.
Record t := {
  internal : protoimpl.t;
  Hosts : option (list string);
  Resolution : ServiceEntry_Resolution;
  Ports : option (list (option ServicePort.t))
}.
End ServiceEntry.

Module Port.
Record t := {
  internal : protoimpl.t;
  Name : string;
  Protocol : string;
  Number : Z
}.
End Port.

Module Server.
Record t := {
  internal : protoimpl.t;
  Hosts : option (list string);
  Port : option Port.t
}.
End Server.

Module Gateway.
Record t := {
  internal : protoimpl.t;
  Servers : option (list (option Server.t))
}.
End Gateway.

(** [LoadBalancerSettings_Simple] wraps the enumeration of the simple load
    balancers, an [int32]; it is the member of a one-of, not a message, and
    has no internal state.  [new(...)] yields its zero value. *)
Module LoadBalancerSettings_Simple.
Record t := { Simple : Z }.
Definition new : t := {| Simple := 0 |}.
End LoadBalancerSettings_Simple.

Module LoadBalancerSettings.
Record t := {
  internal : protoimpl.t;
  LbPolicy : option LoadBalancerSettings_Simple.t
}.
End LoadBalancerSettings.

Module TrafficPolicy.
Record t := {
  internal : protoimpl.t;
  LoadBalancer : option LoadBalancerSettings.t
}.
End TrafficPolicy.

Module DestinationRule.
Record t := {
  internal : protoimpl.t;
  Host : string;
  TrafficPolicy : option TrafficPolicy.t
}.
End DestinationRule.

#[global] Instance Destination_eq_dec : EqDecision Destination.t.
Proof. solve_decision. Defined.
#[global] Instance HTTPRouteDestination_eq_dec :
  EqDecision HTTPRouteDestination.t.
Proof. solve_decision. Defined.
#[global] Instance HTTPRoute_eq_dec : EqDecision HTTPRoute.t.
Proof. solve_decision. Defined.
#[global] Instance VirtualService_eq_dec : EqDecision VirtualService.t.
Proof. solve_decision. Defined.
#[global] Instance ServiceEntry_Resolution_eq_dec :
  EqDecision ServiceEntry_Resolution.
Proof. unfold ServiceEntry_Resolution. apply _. Defined.
#[global] Instance ServicePort_eq_dec : EqDecision ServicePort.t.
Proof. solve_decision. Defined.
#[global] Instance ServiceEntry_eq_dec : EqDecision ServiceEntry.t.
Proof. solve_decision. Defined.
#[global] Instance Port_eq_dec : EqDecision Port.t.
Proof. solve_decision. Defined.
#[global] Instance Server_eq_dec : EqDecision Server.t.
Proof. solve_decision. Defined.
#[global] Instance Gateway_eq_dec : EqDecision Gateway.t.
Proof. solve_decision. Defined.
#[global] Instance LoadBalancerSettings_Simple_eq_dec :
  EqDecision LoadBalancerSettings_Simple.t.
Proof. solve_decision. Defined.
#[global] Instance LoadBalancerSettings_eq_dec :
  EqDecision LoadBalancerSettings.t.
Proof. solve_decision. Defined.
#[global] Instance TrafficPolicy_eq_dec : EqDecision TrafficPolicy.t.
Proof. solve_decision. Defined.
#[global] Instance DestinationRule_eq_dec : EqDecision DestinationRule.t.
Proof. solve_decision. Defined.
End networking.

Module api.
Module WorkloadSelector.
Record t := {
  internal : protoimpl.t;
  MatchLabels : option (gmap string string)
}.
End WorkloadSelector.

#[global] Instance WorkloadSelector_eq_dec : EqDecision WorkloadSelector.t.
Proof. solve_decision. Defined.
End api.

Module authz.
Module AuthorizationPolicy.
Record t := {
  internal : protoimpl.t;
  Selector : option api.WorkloadSelector.t
}.
End AuthorizationPolicy.

#[global] Instance AuthorizationPolicy_eq_dec :
  EqDecision AuthorizationPolicy.t.
Proof. solve_decision. Defined.
End authz.

(** ** The mock payload (package [config] of the test helpers)

    Modelled from the spec: the declarations of [config.MockConfig] and
    [config.ConfigPair] are not part of this package.  The payload has the
    identity field [Key] and the auxiliary [Pairs] of the fixture factory;
    both are generated messages, and as such begin with the internal state
    of [protoimpl]. *)
Module config.
Module ConfigPair.
Record t := { internal : protoimpl.t; Key : string; Value : string }.
End ConfigPair.

Module MockConfig.
Record t := {
  internal : protoimpl.t;
  Key : string;
  Pairs : option (list (option ConfigPair.t))
}.

(** [config.MockConfig{}] *)
Definition zero : t :=
  {| internal := protoimpl.zero; Key := ""; Pairs := None |}.
End MockConfig.

#[global] Instance ConfigPair_eq_dec : EqDecision ConfigPair.t.
Proof. solve_decision. Defined.
#[global] Instance MockConfig_eq_dec : EqDecision MockConfig.t.
Proof. solve_decision. Defined.
End config.

(** ** Resources (package [config2]) *)
Module config2.
Record GroupVersionKind :=
  { Group : string; Version : string; Kind : string }.

#[global] Instance GroupVersionKind_eq_dec : EqDecision GroupVersionKind.
Proof. solve_decision. Defined.

(** [config2.Spec] is the empty interface.  [SpecNil] is the nil interface;
    the dynamic types the harness stores in it, pointers to messages, have a
    constructor each, which holds the message pointed to; [SpecOther]
    holds a value of any other dynamic type, with the name of that type. *)
Inductive Spec :=
| SpecNil
| SpecMockConfig (m : config.MockConfig.t)
| SpecVirtualService (v : networking.VirtualService.t)
| SpecDestinationRule (d : networking.DestinationRule.t)
| SpecServiceEntry (s : networking.ServiceEntry.t)
| SpecGateway (g : networking.Gateway.t)
| SpecAuthorizationPolicy (a : authz.AuthorizationPolicy.t)
| SpecOther (typ : string) (v : go.Value).

#[global] Instance Spec_eq_dec : EqDecision Spec.
Proof. solve_decision. Defined.

(** Modelled from the spec: the declaration of [config2.Meta] is not part
    of this package.  The fields are those of the spec's data model (kind,
    name, namespace, labels, annotations, version, createdAt), under the
    names the harness uses for them. *)
Module Meta.
Record t := {
  GroupVersionKind : config2.GroupVersionKind;
  Name : string;
  Namespace : string;
  Labels : option (gmap string string);
  Annotations : option (gmap string string);
  ResourceVersion : string;
  CreationTimestamp : time.Time
}.

(** [config2.Meta{}] *)
Definition zero : t :=
  {| GroupVersionKind := {| Group := ""; Version := ""; Kind := "" |};
     Name := ""; Namespace := ""; Labels := None; Annotations := None;
     ResourceVersion := ""; CreationTimestamp := time.zero |}.

Definition set_Namespace (v : string) (m : t) : t :=
  {| GroupVersionKind := GroupVersionKind m; Name := Name m;
     Namespace := v; Labels := Labels m; Annotations := Annotations m;
     ResourceVersion := ResourceVersion m;
     CreationTimestamp := CreationTimestamp m |}.

Definition set_ResourceVersion (v : string) (m : t) : t :=
  {| GroupVersionKind := GroupVersionKind m; Name := Name m;
     Namespace := Namespace m; Labels := Labels m;
     Annotations := Annotations m; ResourceVersion := v;
     CreationTimestamp := CreationTimestamp m |}.

Definition set_CreationTimestamp (v : time.Time) (m : t) : t :=
  {| GroupVersionKind := GroupVersionKind m; Name := Name m;
     Namespace := Namespace m; Labels := Labels m;
     Annotations := Annotations m;
     ResourceVersion := ResourceVersion m; CreationTimestamp := v |}.
End Meta.

#[global] Instance Meta_eq_dec : EqDecision Meta.t.
Proof. solve_decision. Defined.

(** Modelled from the spec: [config2.Config] is declared outside this
    package; it is the identity metadata (embedded, so that [c.Name] reads
    [Meta.Name (Config.Meta c)]) and the payload. *)
Module Config.
Record t := { Meta : Meta.t; Spec : config2.Spec }.

(** [config2.Config{}] *)
Definition zero : t := {| Meta := Meta.zero; Spec := SpecNil |}.

Definition Name (c : t) : string := Meta.Name (Meta c).
Definition Namespace (c : t) : string := Meta.Namespace (Meta c).
Definition ResourceVersion (c : t) : string := Meta.ResourceVersion (Meta c).

Definition set_ResourceVersion (v : string) (c : t) : t :=
  {| Meta := Meta.set_ResourceVersion v (Meta c); Spec := Spec c |}.
Definition set_CreationTimestamp (v : time.Time) (c : t) : t :=
  {| Meta := Meta.set_CreationTimestamp v (Meta c); Spec := Spec c |}.
End Config.

#[global] Instance Config_eq_dec : EqDecision Config.t.
Proof. solve_decision. Defined.
End config2.

(** ** [reflect.DeepEqual]

    Deep equality as package [reflect] documents it, on the types [Compare]
    applies it to.  Two maps are deeply equal when they are both nil or
    both non-nil, have the same length, and equal keys map to deeply equal
    values; two slices when they are both nil or both non-nil, have the
    same length, and their elements are deeply equal in order; two
    pointers when they are both nil or the values they point to are deeply
    equal; two interface values when they hold deeply equal values of the
    same dynamic type; two structures when their fields, exported and
    unexported, are; strings and numbers when they are equal. *)
Module reflect.
Import config2.

Definition DeepEqual_map (a b : option (gmap string string)) : bool :=
  match a, b with
  | None, None => true
  | Some m1, Some m2 =>
      bool_decide (size m1 = size m2)
      && bool_decide (map_Forall (λ k v, m2 !! k = Some v) m1)
  | _, _ => false
  end.

Fixpoint DeepEqual_bytes (l1 l2 : list Byte.byte) : bool :=
  match l1, l2 with
  | [], [] => true
  | x :: l1, y :: l2 => bool_decide (x = y) && DeepEqual_bytes l1 l2
  | _, _ => false
  end.

(** The internal state of a message: [state], [sizeCache] and
    [unknownFields], a slice of bytes. *)
Definition DeepEqual_internal (a b : protoimpl.t) : bool :=
  bool_decide (protoimpl.state a = protoimpl.state b)
  && bool_decide (protoimpl.sizeCache a = protoimpl.sizeCache b)
  && match protoimpl.unknownFields a, protoimpl.unknownFields b with
     | None, None => true
     | Some l1, Some l2 => DeepEqual_bytes l1 l2
     | _, _ => false
     end.

Definition DeepEqual_ConfigPair (a b : config.ConfigPair.t) : bool :=
  DeepEqual_internal (config.ConfigPair.internal a)
                     (config.ConfigPair.internal b)
  && bool_decide (config.ConfigPair.Key a = config.ConfigPair.Key b)
  && bool_decide (config.ConfigPair.Value a = config.ConfigPair.Value b).

(** The elements of [Pairs] are pointers. *)
Definition DeepEqual_element (a b : option config.ConfigPair.t) : bool :=
  match a, b with
  | None, None => true
  | Some x, Some y => DeepEqual_ConfigPair x y
  | _, _ => false
  end.

Fixpoint DeepEqual_elements (l1 l2 : list (option config.ConfigPair.t))
    : bool :=
  match l1, l2 with
  | [], [] => true
  | x :: l1, y :: l2 => DeepEqual_element x y && DeepEqual_elements l1 l2
  | _, _ => false
  end.

Definition DeepEqual_Pairs (a b : option (list (option config.ConfigPair.t)))
    : bool :=
  match a, b with
  | None, None => true
  | Some l1, Some l2 => DeepEqual_elements l1 l2
  | _, _ => false
  end.

Definition DeepEqual_MockConfig (a b : config.MockConfig.t) : bool :=
  DeepEqual_internal (config.MockConfig.internal a)
                     (config.MockConfig.internal b)
  && bool_decide (config.MockConfig.Key a = config.MockConfig.Key b)
  && DeepEqual_Pairs (config.MockConfig.Pairs a) (config.MockConfig.Pairs b).

Fixpoint DeepEqual_Value (a b : go.Value) : bool :=
  let fix each (l1 l2 : list go.Value) : bool :=
    match l1, l2 with
    | [], [] => true
    | x :: l1, y :: l2 => DeepEqual_Value x y && each l1 l2
    | _, _ => false
    end in
  match a, b with
  | go.Nil, go.Nil => true
  | go.Bool x, go.Bool y => bool_decide (x = y)
  | go.Int x, go.Int y => bool_decide (x = y)
  | go.String x, go.String y => bool_decide (x = y)
  | go.Struct l1, go.Struct l2 => each l1 l2
  | go.Slice l1, go.Slice l2 => each l1 l2
  | go.Pointer x, go.Pointer y => DeepEqual_Value x y
  | _, _ => false
  end.

(** Two payloads of different dynamic types are never deeply equal.  The
    example payloads are compared as structures, field by field, their
    internal state included. *)
Definition DeepEqual_Spec (a b : Spec) : bool :=
  match a, b with
  | SpecNil, SpecNil => true
  | SpecMockConfig m1, SpecMockConfig m2 => DeepEqual_MockConfig m1 m2
  | SpecVirtualService v1, SpecVirtualService v2 => bool_decide (v1 = v2)
  | SpecDestinationRule d1, SpecDestinationRule d2 => bool_decide (d1 = d2)
  | SpecServiceEntry s1, SpecServiceEntry s2 => bool_decide (s1 = s2)
  | SpecGateway g1, SpecGateway g2 => bool_decide (g1 = g2)
  | SpecAuthorizationPolicy a1, SpecAuthorizationPolicy a2 =>
      bool_decide (a1 = a2)
  | SpecOther t1 v1, SpecOther t2 v2 =>
      bool_decide (t1 = t2) && DeepEqual_Value v1 v2
  | _, _ => false
  end.

Definition DeepEqual_Meta (a b : Meta.t) : bool :=
  bool_decide (Meta.GroupVersionKind a = Meta.GroupVersionKind b)
  && bool_decide (Meta.Name a = Meta.Name b)
  && bool_decide (Meta.Namespace a = Meta.Namespace b)
  && DeepEqual_map (Meta.Labels a) (Meta.Labels b)
  && DeepEqual_map (Meta.Annotations a) (Meta.Annotations b)
  && bool_decide (Meta.ResourceVersion a = Meta.ResourceVersion b)
  && bool_decide (Meta.CreationTimestamp a = Meta.CreationTimestamp b).

Definition DeepEqual (a b : Config.t) : bool :=
  DeepEqual_Meta (Config.Meta a) (Config.Meta b)
  && DeepEqual_Spec (Config.Spec a) (Config.Spec b).
End reflect.


(** ** The schema registry (packages [resource], [collection], [collections]) *)

(** Modelled from the spec: [resource.Schema] is declared outside this
    package.  The harness asks a schema for its kind and for its scoping
    rule (cluster-scoped or namespace-scoped). *)
Module resource.
Record Schema := {
  GroupVersionKind : config2.GroupVersionKind;
  IsClusterScoped : bool
}.
End resource.

(** Modelled from the spec: the registry a store answers [Schemas()] with,
    a sequence of schemas searched by kind
    ([findScopeByKind(kind) → (scopingRule, found)]). *)
Module collection.
Definition Schemas := list resource.Schema.
Definition FindByGroupVersionKind (s : Schemas)
    (gvk : config2.GroupVersionKind) : option resource.Schema :=
  List.find (λ x, bool_decide (resource.GroupVersionKind x = gvk)) s.
End collection.

(** The package-level schemas of [collections] the harness refers to.  Their
    values are declared outside this package: the development is parametric
    in them. *)
Module collections.
Record t := {
  Mock : resource.Schema;
  VirtualService : resource.Schema;
  DestinationRule : resource.Schema;
  ServiceEntry : resource.Schema;
  Gateway : resource.Schema;
  AuthorizationPolicy : resource.Schema
}.
End collections.

(** ** The store contract (package [model])

    Modelled from the spec: the interface [model.ConfigStore] is declared
    outside this package; its methods are the five operations of the spec's
    store contract and the registry.  A store is a state of type [St] and
    one function per method, from the state before the call to the result
    and the state after it.  [Create] and [Update] return the stored
    resource and an error ([None] is a nil error), [Delete] an error. *)
Module model.
Record ConfigStore (St : Type) := {
  Schemas : St → collection.Schemas * St;
  Get : config2.GroupVersionKind → string → string →
        St → option config2.Config.t * St;
  List : config2.GroupVersionKind → string → St → list config2.Config.t * St;
  Create : config2.Config.t → St → (config2.Config.t * option error) * St;
  Update : config2.Config.t → St → (config2.Config.t * option error) * St;
  Delete : config2.GroupVersionKind → string → string → option string →
           St → option error * St
}.
Arguments Schemas {St}.
Arguments Get {St}.
Arguments List {St}.
Arguments Create {St}.
Arguments Update {St}.
Arguments Delete {St}.
End model.

(** ** The test driver (package [testing]) *)
Module testing.
(** A [*testing.T] is identified by the name of its test. *)
Definition T := string.

(** What [t.Error], [t.Errorf] and [t.Fatal] are given: a literal text, an
    error, or the arguments of one of the two formats of the harness. *)
Inductive Message :=
| Text (s : string)
| OfError (e : error)
| Wanted (elt : config2.Config.t) (got : option config2.Config.t)
| WantedZero (len : nat) (l : list config2.Config.t).
End testing.

(** ** Runs of the harness *)

(** A store call together with the result the store gave. *)
Inductive Event :=
| EvSchemas (res : collection.Schemas)
| EvGet (typ : config2.GroupVersionKind) (name namespace : string)
        (res : option config2.Config.t)
| EvList (typ : config2.GroupVersionKind) (namespace : string)
         (res : list config2.Config.t)
| EvCreate (cfg : config2.Config.t) (res : config2.Config.t * option error)
| EvUpdate (cfg : config2.Config.t) (res : config2.Config.t * option error)
| EvDelete (typ : config2.GroupVersionKind) (name namespace : string)
           (resourceVersion : option string) (res : option error).

(** The state a run threads: the store, the failures reported so far (each
    with the test it was reported to), the number of [range] loops over maps
    executed so far, and, as ghost state, the store calls made so far. *)
Record World (St : Type) := {
  store : St;
  failures : list (testing.T * testing.Message);
  ranges : nat;
  calls : list Event
}.
Arguments store {St}.
Arguments failures {St}.
Arguments ranges {St}.
Arguments calls {St}.
Arguments Build_World {St}.

(** A step either returns normally or ends the test function at once, as
    [t.Fatal] does ([runtime.Goexit]). *)
Inductive Outcome (St A : Type) :=
| Done (a : A) (w : World St)
| Aborted (w : World St).
Arguments Done {St A}.
Arguments Aborted {St A}.

Definition M (St A : Type) : Type := World St → Outcome St A.

#[global] Instance M_ret {St} : MRet (M St) := λ A a w, Done a w.
#[global] Instance M_bind {St} : MBind (M St) := λ A B f m w,
  match m w with
  | Done a w' => f a w'
  | Aborted w' => Aborted w'
  end.

Definition world_of {St A} (o : Outcome St A) : World St :=
  match o with Done _ w => w | Aborted w => w end.

Definition aborted {St A} (o : Outcome St A) : bool :=
  match o with Done _ _ => false | Aborted _ => true end.

(** [for _, x := range l { f x }] over a sequence. *)
Fixpoint forM_ {St A} (l : list A) (f : A → M St unit) : M St unit :=
  match l with
  | [] => mret tt
  | x :: l' => f x ;; forM_ l' f
  end.

(** A loop that carries a local variable [acc]. *)
Fixpoint foldM {St A B} (f : B → A → M St B) (acc : B) (l : list A) : M St B :=
  match l with
  | [] => mret acc
  | x :: l' => acc' ← f acc x; foldM f acc' l'
  end.

(** ** The harness (package [mock]) *)

Module mock.
Import config2 testing.

Definition ExampleVirtualService : networking.VirtualService.t :=
  {| networking.VirtualService.internal := protoimpl.zero;
     networking.VirtualService.Hosts := Some ["prod"; "test"];
     networking.VirtualService.Http :=
       Some [ Some
         {| networking.HTTPRoute.internal := protoimpl.zero;
            networking.HTTPRoute.Route :=
              Some [ Some
                {| networking.HTTPRouteDestination.internal := protoimpl.zero;
                   networking.HTTPRouteDestination.Destination :=
                     Some {| networking.Destination.internal := protoimpl.zero;
                             networking.Destination.Host := "job" |};
                   networking.HTTPRouteDestination.Weight := 80 |} ] |} ] |}.

Definition ExampleServiceEntry : networking.ServiceEntry.t :=
  {| networking.ServiceEntry.internal := protoimpl.zero;
     networking.ServiceEntry.Hosts := Some ["*.google.com"];
     networking.ServiceEntry.Resolution := networking.ServiceEntry_NONE;
     networking.ServiceEntry.Ports :=
       Some [ Some {| networking.ServicePort.internal := protoimpl.zero;
                      networking.ServicePort.Number := 80;
                      networking.ServicePort.Name := "http-name";
                      networking.ServicePort.Protocol := "http" |};
              Some {| networking.ServicePort.internal := protoimpl.zero;
                      networking.ServicePort.Number := 8080;
                      networking.ServicePort.Name := "http2-name";
                      networking.ServicePort.Protocol := "http2" |} ] |}.

Definition ExampleGateway : networking.Gateway.t :=
  {| networking.Gateway.internal := protoimpl.zero;
     networking.Gateway.Servers :=
       Some [ Some
         {| networking.Server.internal := protoimpl.zero;
            networking.Server.Hosts := Some ["google.com"];
            networking.Server.Port :=
              Some {| networking.Port.internal := protoimpl.zero;
                      networking.Port.Name := "http";
                      networking.Port.Protocol := "http";
                      networking.Port.Number := 10080 |} |} ] |}.

Definition ExampleDestinationRule : networking.DestinationRule.t :=
  {| networking.DestinationRule.internal := protoimpl.zero;
     networking.DestinationRule.Host := "ratings";
     networking.DestinationRule.TrafficPolicy :=
       Some {| networking.TrafficPolicy.internal := protoimpl.zero;
               networking.TrafficPolicy.LoadBalancer :=
                 Some {| networking.LoadBalancerSettings.internal :=
                           protoimpl.zero;
                         networking.LoadBalancerSettings.LbPolicy :=
                           Some networking.LoadBalancerSettings_Simple.new |}
            |} |}.

Definition ExampleAuthorizationPolicy : authz.AuthorizationPolicy.t :=
  {| authz.AuthorizationPolicy.internal := protoimpl.zero;
     authz.AuthorizationPolicy.Selector :=
       Some {| api.WorkloadSelector.internal := protoimpl.zero;
               api.WorkloadSelector.MatchLabels :=
                 Some (<["app" := "httpbin"]> (<["version" := "v1"]> ∅)) |}
  |}.

Section Harness.
Context {St : Type}.

(** The schemas of package [collections]. *)
Variable schemas : collections.t.

(** Go leaves the order in which [range] visits a map unspecified.
    [rangeOrder k elts] is the order the [k]-th such loop of a run happens
    to use; what is known of it is [rangeOrder_perm] below. *)
Variable rangeOrder : nat → gmap Z Config.t → list (Z * Config.t).

Definition mockGvk : GroupVersionKind :=
  resource.GroupVersionKind (collections.Mock schemas).

(** *** Primitive steps *)

(** A call of a store method: the store moves on and the call is logged
    with its result. *)
Definition call {A} (op : St → A * St) (ev : A → Event) : M St A := λ w,
  let '(res, s') := op (store w) in
  Done res {| store := s'; failures := failures w; ranges := ranges w;
              calls := calls w ++ [ev res] |}.

Definition r_Schemas (r : model.ConfigStore St) : M St collection.Schemas :=
  call (model.Schemas r) EvSchemas.
Definition r_Get (r : model.ConfigStore St) (typ : GroupVersionKind)
    (name namespace : string) : M St (option Config.t) :=
  call (model.Get r typ name namespace) (EvGet typ name namespace).
Definition r_List (r : model.ConfigStore St) (typ : GroupVersionKind)
    (namespace : string) : M St (list Config.t) :=
  call (model.List r typ namespace) (EvList typ namespace).
Definition r_Create (r : model.ConfigStore St) (cfg : Config.t)
    : M St (Config.t * option error) :=
  call (model.Create r cfg) (EvCreate cfg).
Definition r_Update (r : model.ConfigStore St) (cfg : Config.t)
    : M St (Config.t * option error) :=
  call (model.Update r cfg) (EvUpdate cfg).
Definition r_Delete (r : model.ConfigStore St) (typ : GroupVersionKind)
    (name namespace : string) (resourceVersion : option string)
    : M St (option error) :=
  call (model.Delete r typ name namespace resourceVersion)
       (EvDelete typ name namespace resourceVersion).

(** [t.Error] and [t.Errorf]: the failure is recorded and the test goes on. *)
Definition t_Error (t : T) (msg : Message) : M St unit := λ w,
  Done tt {| store := store w; failures := failures w ++ [(t, msg)];
             ranges := ranges w; calls := calls w |}.

(** [t.Fatal]: the failure is recorded and the test function ends. *)
Definition t_Fatal {A} (t : T) (msg : Message) : M St A := λ w,
  Aborted {| store := store w; failures := failures w ++ [(t, msg)];
             ranges := ranges w; calls := calls w |}.

(** [t.Run(name, f)]: [f] runs as the sub-test [t/name]; when it ends, by
    returning or by [t.Fatal], the caller goes on.  (The harness ignores the
    boolean [t.Run] returns.) *)
Definition t_Run (t : T) (name : string) (f : T → M St unit) : M St unit :=
  λ w, Done tt (world_of (f (t +:+ "/" +:+ name) w)).

(** The entries of [elts] in the order this [range] loop visits them. *)
Definition range (elts : gmap Z Config.t) : M St (list (Z * Config.t)) := λ w,
  Done (rangeOrder (ranges w) elts)
       {| store := store w; failures := failures w;
          ranges := Datatypes.S (ranges w); calls := calls w |}.

(** *** Fixtures and equality *)

(** Make creates a mock config indexed by a number.  [fmt.Sprintf] with
    [%d] and [strconv.Itoa] both give the decimal numeral of [i]; the fields
    the literal leaves out have their zero values. *)
Definition Make (namespace : string) (i : Z) : Config.t :=
  let name := "mock-config" +:+ pretty i in
  {| Config.Meta :=
       {| Meta.GroupVersionKind := mockGvk;
          Meta.Name := name;
          Meta.Namespace := namespace;
          Meta.Labels := Some {[ "key" := name ]};
          Meta.Annotations := Some {[ "annotationkey" := name ]};
          Meta.ResourceVersion := "";
          Meta.CreationTimestamp := time.zero |};
     Config.Spec :=
       SpecMockConfig
         {| config.MockConfig.internal := protoimpl.zero;
            config.MockConfig.Key := name;
            config.MockConfig.Pairs :=
              Some [ Some {| config.ConfigPair.internal := protoimpl.zero;
                             config.ConfigPair.Key := "key";
                             config.ConfigPair.Value := pretty i |} ] |} |}.

(** Compare checks two configs ignoring revisions and creation time. *)
Definition Compare (a b : Config.t) : bool :=
  let a := Config.set_ResourceVersion "" a in
  let b := Config.set_ResourceVersion "" b in
  let a := Config.set_CreationTimestamp time.zero a in
  let b := Config.set_CreationTimestamp time.zero b in
  reflect.DeepEqual a b.

(** *** CheckMapInvariant and its steps *)

Definition verifyConfigTypes (r : model.ConfigStore St) (t : T)
    : M St unit :=
  s ← r_Schemas r;
  if collection.FindByGroupVersionKind s mockGvk is Some _
  then mret tt
  else t_Fatal t (Text "expected config mock types").

(** [for i := 0; i < n; i++ { elts[i] = Make(namespace, i) }] *)
Definition createConfigs (namespace : string) (n : Z) : gmap Z Config.t :=
  foldl (λ elts i, <[i := Make namespace i]> elts) ∅ (seqZ 0 n).

Definition createConfigsInStore (r : model.ConfigStore St) (t : T)
    (elts : gmap Z Config.t) : M St unit :=
  l ← range elts;
  forM_ l (λ '(_, elt),
    '(_, err) ← r_Create r elt;
    if err is Some e then t_Error t (OfError e) else mret tt).

(** The loop of [verifyConfigsInStore], returning its local [revs]. *)
Definition verifyConfigsInStore_revs (r : model.ConfigStore St) (t : T)
    (elts : gmap Z Config.t) : M St (gmap Z string) :=
  l ← range elts;
  foldM (λ (revs : gmap Z string) '(i, elt),
    v1 ← r_Get r mockGvk (Config.Name elt) (Config.Namespace elt);
    match v1 with
    | Some v =>
        if negb (Compare elt v)
        then t_Error t (Wanted elt v1) ;; mret revs
        else mret (<[i := Config.ResourceVersion v]> revs)
    | None => t_Error t (Wanted elt v1) ;; mret revs
    end) ∅ l.

(** [revs] is local to the function and dropped when it returns. *)
Definition verifyConfigsInStore (r : model.ConfigStore St) (t : T)
    (elts : gmap Z Config.t) : M St unit :=
  verifyConfigsInStore_revs r t elts ;; mret tt.

Definition getFirstRevision (elts : gmap Z Config.t) : M St string :=
  l ← range elts;
  match l with
  | (_, elt) :: _ => mret (Config.ResourceVersion elt)
  | [] => mret ""
  end.

Definition assertError (t : T) (r : model.ConfigStore St) (cfg : Config.t)
    : M St unit :=
  '(_, err) ← r_Create r cfg;
  (if err is None
   then t_Error t (Text "expected error posting invalid object")
   else mret tt) ;;
  '(_, err) ← r_Update r cfg;
  if err is None
  then t_Error t (Text "expected error updating invalid object")
  else mret tt.

Definition verifyMissingElements (r : model.ConfigStore St) (t : T)
    : M St unit :=
  l ← r_List r mockGvk "";
  (if bool_decide (0 < length l)%nat
   then t_Error t (Text "unexpected objects for missing type")
   else mret tt) ;;
  cfg ← r_Get r mockGvk "missing" "";
  if cfg is Some _
  then t_Error t (Text "unexpected configuration object found")
  else mret tt.

(** The two literals of [verifyErrorsOnInvalidOperations], as functions of
    the value [getFirstRevision] returned. *)
Definition invalid_config (rev : string) : Config.t :=
  {| Config.Meta :=
       {| Meta.GroupVersionKind := mockGvk; Meta.Name := "invalid";
          Meta.Namespace := ""; Meta.Labels := None;
          Meta.Annotations := None; Meta.ResourceVersion := rev;
          Meta.CreationTimestamp := time.zero |};
     Config.Spec := SpecMockConfig config.MockConfig.zero |}.

Definition missing_config (rev : string) : Config.t :=
  {| Config.Meta :=
       {| Meta.GroupVersionKind := mockGvk; Meta.Name := "missing";
          Meta.Namespace := ""; Meta.Labels := None;
          Meta.Annotations := None; Meta.ResourceVersion := rev;
          Meta.CreationTimestamp := time.zero |};
     Config.Spec :=
       SpecMockConfig {| config.MockConfig.internal := protoimpl.zero;
                         config.MockConfig.Key := "missing";
                         config.MockConfig.Pairs := None |} |}.

Definition verifyErrorsOnInvalidOperations (r : model.ConfigStore St)
    (t : T) (elts : gmap Z Config.t) : M St unit :=
  rev ← getFirstRevision elts;
  let invalid := invalid_config rev in
  rev ← getFirstRevision elts;
  let missing := missing_config rev in
  assertError t r Config.zero ;;
  assertError t r invalid ;;
  assertError t r missing ;;
  verifyMissingElements r t.

Definition deleteConfigsFromStore (r : model.ConfigStore St) (t : T)
    (namespace : string) (n : Z) : M St unit :=
  forM_ (seqZ 0 n) (λ i,
    err ← r_Delete r mockGvk (Config.Name (Make namespace i)) namespace None;
    if err is Some e then t_Error t (OfError e) else mret tt) ;;
  l ← r_List r mockGvk namespace;
  if bool_decide (length l ≠ 0%nat)
  then t_Error t (WantedZero (length l) l)
  else mret tt.

(** CheckMapInvariant validates operational invariants of an empty config
    registry. *)
Definition CheckMapInvariant (r : model.ConfigStore St) (t : T)
    (namespace : string) (n : Z) : M St unit :=
  verifyConfigTypes r t ;;
  let elts := createConfigs namespace n in
  createConfigsInStore r t elts ;;
  verifyConfigsInStore r t elts ;;
  verifyErrorsOnInvalidOperations r t elts ;;
  deleteConfigsFromStore r t namespace n.

(** *** CheckIstioConfigTypes *)

Record case := {
  name : string;
  configName : string;
  schema : resource.Schema;
  spec : Spec
}.

Definition cases : list case :=
  let configName := "example" in
  [ {| name := "VirtualService"; configName := configName;
       schema := collections.VirtualService schemas;
       spec := SpecVirtualService ExampleVirtualService |};
    {| name := "DestinationRule"; configName := configName;
       schema := collections.DestinationRule schemas;
       spec := SpecDestinationRule ExampleDestinationRule |};
    {| name := "ServiceEntry"; configName := configName;
       schema := collections.ServiceEntry schemas;
       spec := SpecServiceEntry ExampleServiceEntry |};
    {| name := "Gateway"; configName := configName;
       schema := collections.Gateway schemas;
       spec := SpecGateway ExampleGateway |};
    {| name := "AuthorizationPolicy"; configName := configName;
       schema := collections.AuthorizationPolicy schemas;
       spec := SpecAuthorizationPolicy ExampleAuthorizationPolicy |} ].

(** The body of the sub-test of one case. *)
Definition checkCase (store : model.ConfigStore St) (namespace : string)
    (c : case) (t : T) : M St unit :=
  let configMeta :=
    {| Meta.GroupVersionKind := resource.GroupVersionKind (schema c);
       Meta.Name := configName c;
       Meta.Namespace := ""; Meta.Labels := None; Meta.Annotations := None;
       Meta.ResourceVersion := ""; Meta.CreationTimestamp := time.zero |} in
  let configMeta :=
    if negb (resource.IsClusterScoped (schema c))
    then Meta.set_Namespace namespace configMeta
    else configMeta in
  let cfg := {| Config.Meta := configMeta; Config.Spec := spec c |} in
  '(_, err) ← r_Create store cfg;
  (if err is Some e then t_Error t (OfError e) else mret tt) ;;
  configs ← r_List store (resource.GroupVersionKind (schema c)) namespace;
  (if bool_decide (length configs = 0%nat)
   then t_Error t (Text "expected non-zero number of configs")
   else mret tt) ;;
  storedConfig ← r_Get store (resource.GroupVersionKind (schema c))
                   (configName c) namespace;
  if storedConfig is None
  then t_Error t (Text "expected to find stored config")
  else mret tt.

(** CheckIstioConfigTypes validates that an empty store can ingest Istio
    config objects. *)
Definition CheckIstioConfigTypes (store : model.ConfigStore St)
    (namespace : string) (t : T) : M St unit :=
  forM_ cases (λ c, t_Run t (name c) (checkCase store namespace c)).

End Harness.
End mock.

(** ** An in-memory store

    A store that keeps its resources in a list, keyed by kind, name and
    namespace, and numbers its revisions.  It rejects a resource of an
    unregistered kind, without a name, or without a namespace when its kind
    is namespace-scoped; [Update] and [Delete] reject an absent identity,
    [Update] a stale revision.  The harness is run on it in the examples
    that follow. *)
Module memory.
Import config2.

Record Store := {
  schemas : collection.Schemas;
  data : list Config.t;
  revision : Z
}.

Definition empty (schemas : collection.Schemas) : Store :=
  {| schemas := schemas; data := []; revision := 0 |}.

Definition has_key (typ : GroupVersionKind) (name namespace : string)
    (c : Config.t) : bool :=
  bool_decide (Meta.GroupVersionKind (Config.Meta c) = typ)
  && bool_decide (Config.Name c = name)
  && bool_decide (Config.Namespace c = namespace).

Definition key_of (c : Config.t) : Config.t → bool :=
  has_key (Meta.GroupVersionKind (Config.Meta c)) (Config.Name c)
          (Config.Namespace c).

Definition lookup (typ : GroupVersionKind) (name namespace : string)
    (s : Store) : option Config.t :=
  List.find (has_key typ name namespace) (data s).

Definition stamp (rev : Z) (c : Config.t) : Config.t :=
  Config.set_ResourceVersion (pretty rev)
    (Config.set_CreationTimestamp
       {| time.wall := rev; time.ext := 0; time.loc := None |} c).

Definition fail (msg : string) (s : Store)
    : (Config.t * option error) * Store :=
  ((Config.zero, Some (errorString msg)), s).

Definition Get (typ : GroupVersionKind) (name namespace : string)
    (s : Store) : option Config.t * Store :=
  (lookup typ name namespace s, s).

Definition List (typ : GroupVersionKind) (namespace : string) (s : Store)
    : list Config.t * Store :=
  (List.filter (λ c,
     bool_decide (Meta.GroupVersionKind (Config.Meta c) = typ)
     && bool_decide (Config.Namespace c = namespace)) (data s), s).

Definition Create (cfg : Config.t) (s : Store)
    : (Config.t * option error) * Store :=
  match collection.FindByGroupVersionKind (schemas s)
          (Meta.GroupVersionKind (Config.Meta cfg)) with
  | None => fail "unknown type" s
  | Some sch =>
      if bool_decide (Config.Name cfg = "") then
        fail "invalid name" s
      else if negb (resource.IsClusterScoped sch)
              && bool_decide (Config.Namespace cfg = "") then
        fail "namespace required" s
      else if List.existsb (key_of cfg) (data s) then
        fail "item already exists" s
      else
        let rev := revision s + 1 in
        ((stamp rev cfg, None),
         {| schemas := schemas s; data := data s ++ [stamp rev cfg];
            revision := rev |})
  end.

Definition Update (cfg : Config.t) (s : Store)
    : (Config.t * option error) * Store :=
  match List.find (key_of cfg) (data s) with
  | None => fail "item not found" s
  | Some old =>
      if bool_decide (Config.ResourceVersion cfg = Config.ResourceVersion old)
      then
        let rev := revision s + 1 in
        ((stamp rev cfg, None),
         {| schemas := schemas s;
            data := List.map (λ c, if key_of cfg c then stamp rev cfg else c)
                             (data s);
            revision := rev |})
      else fail "old revision" s
  end.

Definition Delete (typ : GroupVersionKind) (name namespace : string)
    (resourceVersion : option string) (s : Store) : option error * Store :=
  if List.existsb (has_key typ name namespace) (data s) then
    (None,
     {| schemas := schemas s;
        data := List.filter (λ c, negb (has_key typ name namespace c))
                            (data s);
        revision := revision s |})
  else (Some (errorString "item not found"), s).

Definition store : model.ConfigStore Store :=
  {| model.Schemas := λ s, (schemas s, s);
     model.Get := Get;
     model.List := List;
     model.Create := Create;
     model.Update := Update;
     model.Delete := Delete |}.
End memory.

(** ** A concrete setting

    A registry of six namespace-scoped kinds, the in-memory store that knows
    them, empty, and the order in which [map_to_list] enumerates a map as
    the order of every [range] loop. *)
Module example.
Import config2.

Definition kind (k : string) : GroupVersionKind :=
  {| Group := "test.istio.io"; Version := "v1"; Kind := k |}.

Definition namespaced (k : string) : resource.Schema :=
  {| resource.GroupVersionKind := kind k; resource.IsClusterScoped := false |}.

Definition cluster (k : string) : resource.Schema :=
  {| resource.GroupVersionKind := kind k; resource.IsClusterScoped := true |}.

Definition schemas : collections.t :=
  {| collections.Mock := namespaced "MockConfig";
     collections.VirtualService := namespaced "VirtualService";
     collections.DestinationRule := namespaced "DestinationRule";
     collections.ServiceEntry := namespaced "ServiceEntry";
     collections.Gateway := namespaced "Gateway";
     collections.AuthorizationPolicy := namespaced "AuthorizationPolicy" |}.

(** The same registry with a cluster-scoped [VirtualService]. *)
Definition schemas_cluster : collections.t :=
  {| collections.Mock := namespaced "MockConfig";
     collections.VirtualService := cluster "VirtualService";
     collections.DestinationRule := namespaced "DestinationRule";
     collections.ServiceEntry := namespaced "ServiceEntry";
     collections.Gateway := namespaced "Gateway";
     collections.AuthorizationPolicy := namespaced "AuthorizationPolicy" |}.

Definition registry (c : collections.t) : collection.Schemas :=
  [collections.Mock c; collections.VirtualService c;
   collections.DestinationRule c; collections.ServiceEntry c;
   collections.Gateway c; collections.AuthorizationPolicy c].

Definition world (c : collections.t) : World memory.Store :=
  {| store := memory.empty (registry c); failures := []; ranges := 0;
     calls := [] |}.

Definition order (k : nat) (elts : gmap Z Config.t) : list (Z * Config.t) :=
  map_to_list elts.

(** The world after the bulk creation of [n] fixtures in [namespace]. *)
Definition populated (namespace : string) (n : Z) : World memory.Store :=
  world_of (mock.createConfigsInStore order memory.store "TestStore"
              (mock.createConfigs schemas namespace n) (world schemas)).

(** The zero-value resource with an empty, non-nil label map. *)
Definition empty_labels : Config.t :=
  {| Config.Meta :=
       {| Meta.GroupVersionKind := Meta.GroupVersionKind Meta.zero;
          Meta.Name := ""; Meta.Namespace := "";
          Meta.Labels := Some ∅; Meta.Annotations := None;
          Meta.ResourceVersion := ""; Meta.CreationTimestamp := time.zero |};
     Config.Spec := SpecNil |}.

(** [c] once its mock payload has been bound to the description of its
    type, as marshalling, unmarshalling or reflecting on the message does.
    No exported field changes. *)
Definition bound (c : Config.t) : Config.t :=
  match Config.Spec c with
  | SpecMockConfig m =>
      {| Config.Meta := Config.Meta c;
         Config.Spec :=
           SpecMockConfig
             {| config.MockConfig.internal :=
                  {| protoimpl.state := true;
                     protoimpl.sizeCache :=
                       protoimpl.sizeCache (config.MockConfig.internal m);
                     protoimpl.unknownFields :=
                       protoimpl.unknownFields (config.MockConfig.internal m)
                  |};
                config.MockConfig.Key := config.MockConfig.Key m;
                config.MockConfig.Pairs := config.MockConfig.Pairs m |} |}
  | _ => c
  end.

(** The exported fields of the payload of [c], when it is a mock payload. *)
Definition exported (c : Config.t)
    : option (string * option (list (option config.ConfigPair.t))) :=
  match Config.Spec c with
  | SpecMockConfig m =>
      Some (config.MockConfig.Key m, config.MockConfig.Pairs m)
  | _ => None
  end.

(** A store that already holds a resource named [missing] in [namespace]. *)
Definition with_missing (namespace : string) : World memory.Store :=
  {| store :=
       {| memory.schemas := registry schemas;
          memory.data :=
            [ memory.stamp 1
                {| Config.Meta :=
                     Meta.set_Namespace namespace
                       (Config.Meta (mock.missing_config schemas ""));
                   Config.Spec :=
                     Config.Spec (mock.missing_config schemas "") |} ];
          memory.revision := 1 |};
     failures := []; ranges := 0; calls := [] |}.
End example.

(** ** Observing a run

    A run is observed through the store calls it makes and the failures it
    reports.  [Replay r s evs s'] says that the calls [evs], made in this
    order on the store [r] in state [s], get the recorded results and leave
    the store in state [s']. *)
Section Observations.
Context {St : Type}.
Variable r : model.ConfigStore St.

Definition step (s : St) (ev : Event) (s' : St) : Prop :=
  match ev with
  | EvSchemas res => model.Schemas r s = (res, s')
  | EvGet typ name namespace res =>
      model.Get r typ name namespace s = (res, s')
  | EvList typ namespace res => model.List r typ namespace s = (res, s')
  | EvCreate cfg res => model.Create r cfg s = (res, s')
  | EvUpdate cfg res => model.Update r cfg s = (res, s')
  | EvDelete typ name namespace rv res =>
      model.Delete r typ name namespace rv s = (res, s')
  end.

Inductive Replay : St → list Event → St → Prop :=
| Replay_nil s : Replay s [] s
| Replay_cons s ev s' evs s'' :
    step s ev s' → Replay s' evs s'' → Replay s (ev :: evs) s''.

Definition is_Delete (ev : Event) : bool :=
  match ev with EvDelete _ _ _ _ _ => true | _ => false end.

(** [ev] is the call [Get(typ, name, namespace)]. *)
Definition is_Get (typ : config2.GroupVersionKind) (name namespace : string)
    (ev : Event) : bool :=
  match ev with
  | EvGet typ' name' namespace' _ =>
      bool_decide (typ' = typ) && bool_decide (name' = name)
      && bool_decide (namespace' = namespace)
  | _ => false
  end.

(** [Runs m w a evs fs w']: from the world [w], the step [m] returns [a]
    normally in the world [w'], having made exactly the store calls [evs]
    and reported exactly the failures [fs]. *)
Record Runs {A} (m : M St A) (w : World St) (a : A) (evs : list Event)
    (fs : list (testing.T * testing.Message)) (w' : World St) : Prop := {
  runs_done : m w = Done a w';
  runs_calls : calls w' = calls w ++ evs;
  runs_failures : failures w' = failures w ++ fs;
  runs_replay : Replay (store w) evs (store w')
}.
End Observations.

(** ** What the harness asserts

    The calls each step of the harness makes and the failures it reports,
    as functions of what the store answered. *)
Section Verdicts.
Import config2 testing.
Variable schemas : collections.t.

(** The failure [t.Error(err)] reports for a non-nil error. *)
Definition when_error (t : T) (err : option error) : list (T * Message) :=
  match err with Some e => [(t, OfError e)] | None => [] end.

(** The failure reported when an operation that had to fail did not. *)
Definition unless_error (t : T) (msg : string) (res : Config.t * option error)
    : list (T * Message) :=
  match res.2 with None => [(t, Text msg)] | Some _ => [] end.

(** Bulk creation: one [Create] per entry visited. *)
Definition create_calls (ord : list (Z * Config.t))
    (res : list (Config.t * option error)) : list Event :=
  zip_with (λ x b, EvCreate x.2 b) ord res.

Definition create_failures (t : T) (res : list (Config.t * option error))
    : list (T * Message) :=
  concat ((λ b, when_error t b.2) <$> res).

(** The read-back of the fixture [elt] is right when [Get] returned a
    resource, and one that [Compare]s equal to [elt]. *)
Definition read_back_ok (elt : Config.t) (v1 : option Config.t) : Prop :=
  ∃ v, v1 = Some v ∧ mock.Compare elt v = true.

#[global] Instance read_back_ok_dec elt v1 : Decision (read_back_ok elt v1).
Proof.
  destruct v1 as [v|].
  - destruct (mock.Compare elt v) eqn:E.
    + left. by exists v.
    + right. intros (v' & [= <-] & ?). congruence.
  - right. by intros (v' & [=] & _).
Defined.

Definition read_back_failure (t : T) (elt : Config.t) (v1 : option Config.t)
    : list (T * Message) :=
  if decide (read_back_ok elt v1) then [] else [(t, Wanted elt v1)].

(** The [Get] call that reads the fixture [elt] back. *)
Definition read_back_call (elt : Config.t) (v1 : option Config.t) : Event :=
  EvGet (mock.mockGvk schemas) (Config.Name elt) (Config.Namespace elt) v1.

Definition read_back_calls (ord : list (Z * Config.t))
    (got : list (option Config.t)) : list Event :=
  zip_with (λ x v1, read_back_call x.2 v1) ord got.

Definition read_back_failures (t : T) (ord : list (Z * Config.t))
    (got : list (option Config.t)) : list (T * Message) :=
  concat (zip_with (λ x v1, read_back_failure t x.2 v1) ord got).

(** What [getFirstRevision] returns when its loop visits the entries in the
    order [l]. *)
Definition first_revision (l : list (Z * Config.t)) : string :=
  match l with (_, elt) :: _ => Config.ResourceVersion elt | [] => "" end.

(** A revision is borrowed from the fixtures [elts] when it is the revision
    one of them carries (the empty revision when there is none). *)
Definition borrowed (elts : gmap Z Config.t) (rev : string) : Prop :=
  (elts = ∅ ∧ rev = "")
  ∨ ∃ i f, elts !! i = Some f ∧ rev = Config.ResourceVersion f.

(** The two calls of [assertError] and what it reports on their results. *)
Definition assertError_calls (cfg : Config.t)
    (res : (Config.t * option error) * (Config.t * option error)) : list Event :=
  [EvCreate cfg res.1; EvUpdate cfg res.2].

Definition assertError_failures (t : T)
    (res : (Config.t * option error) * (Config.t * option error))
    : list (T * Message) :=
  unless_error t "expected error posting invalid object" res.1
  ++ unless_error t "expected error updating invalid object" res.2.

(** The two calls of [verifyMissingElements] and what it reports. *)
Definition missing_calls (l : list Config.t) (cfg : option Config.t)
    : list Event :=
  [EvList (mock.mockGvk schemas) "" l;
   EvGet (mock.mockGvk schemas) "missing" "" cfg].

Definition missing_failures (t : T) (l : list Config.t)
    (cfg : option Config.t) : list (T * Message) :=
  (if l is [] then [] else [(t, Text "unexpected objects for missing type")])
  ++ (if cfg is None then []
      else [(t, Text "unexpected configuration object found")]).

(** What the store answered during negative-case verification. *)
Record negative_results := {
  on_zero : (Config.t * option error) * (Config.t * option error);
  on_invalid : (Config.t * option error) * (Config.t * option error);
  on_missing : (Config.t * option error) * (Config.t * option error);
  listed_unscoped : list Config.t;
  got_missing : option Config.t
}.

(** Negative-case verification, [rev1] and [rev2] being the revisions put
    in the invalid and in the missing resource. *)
Definition negative_calls (rev1 rev2 : string) (res : negative_results)
    : list Event :=
  assertError_calls Config.zero (on_zero res)
  ++ assertError_calls (mock.invalid_config schemas rev1) (on_invalid res)
  ++ assertError_calls (mock.missing_config schemas rev2) (on_missing res)
  ++ missing_calls (listed_unscoped res) (got_missing res).

Definition negative_failures (t : T) (res : negative_results)
    : list (T * Message) :=
  assertError_failures t (on_zero res)
  ++ assertError_failures t (on_invalid res)
  ++ assertError_failures t (on_missing res)
  ++ missing_failures t (listed_unscoped res) (got_missing res).

(** The [Delete] call for the fixture of index [i]. *)
Definition delete_call (namespace : string) (i : Z) (err : option error)
    : Event :=
  EvDelete (mock.mockGvk schemas) ("mock-config" +:+ pretty i) namespace None
           err.

(** The final emptiness check of [deleteConfigsFromStore]. *)
Definition empty_failure (t : T) (l : list Config.t) : list (T * Message) :=
  if l is [] then [] else [(t, WantedZero (length l) l)].

(** Bulk deletion and the emptiness check that follows it. *)
Definition delete_calls (namespace : string) (n : Z)
    (errs : list (option error)) (l : list Config.t) : list Event :=
  zip_with (delete_call namespace) (seqZ 0 n) errs
  ++ [EvList (mock.mockGvk schemas) namespace l].

Definition delete_failures (t : T) (errs : list (option error))
    (l : list Config.t) : list (T * Message) :=
  concat (when_error t <$> errs) ++ empty_failure t l.

(** What the store answered during a whole run of [CheckMapInvariant]. *)
Record crud_results := {
  creations : list (Config.t * option error);
  read_backs : list (option Config.t);
  negatives : negative_results;
  deletions : list (option error);
  remaining : list Config.t
}.

(** A whole run on a store that has the mock kind: [s] is the registry the
    store answered with, [oc] and [ov] the orders in which bulk creation and
    read-back visit the fixtures, [rev1] and [rev2] the revisions put in the
    invalid and in the missing resource. *)
Definition crud_calls (s : collection.Schemas) (namespace : string) (n : Z)
    (oc ov : list (Z * Config.t)) (rev1 rev2 : string) (res : crud_results)
    : list Event :=
  EvSchemas s
  :: create_calls oc (creations res)
  ++ read_back_calls ov (read_backs res)
  ++ negative_calls rev1 rev2 (negatives res)
  ++ delete_calls namespace n (deletions res) (remaining res).

Definition crud_failures (t : T) (ov : list (Z * Config.t))
    (res : crud_results) : list (T * Message) :=
  create_failures t (creations res)
  ++ read_back_failures t ov (read_backs res)
  ++ negative_failures t (negatives res)
  ++ delete_failures t (deletions res) (remaining res).

(** The resource a case of [CheckIstioConfigTypes] creates. *)
Definition case_config (namespace : string) (c : mock.case) : Config.t :=
  {| Config.Meta :=
       {| Meta.GroupVersionKind := resource.GroupVersionKind (mock.schema c);
          Meta.Name := mock.configName c;
          Meta.Namespace :=
            if resource.IsClusterScoped (mock.schema c) then ""
            else namespace;
          Meta.Labels := None; Meta.Annotations := None;
          Meta.ResourceVersion := ""; Meta.CreationTimestamp := time.zero |};
     Config.Spec := mock.spec c |}.

(** What the store answered to the three calls of a case. *)
Record case_results := {
  created : Config.t * option error;
  listed : list Config.t;
  stored : option Config.t
}.

Definition case_calls (namespace : string) (c : mock.case)
    (res : case_results) : list Event :=
  [EvCreate (case_config namespace c) (created res);
   EvList (resource.GroupVersionKind (mock.schema c)) namespace (listed res);
   EvGet (resource.GroupVersionKind (mock.schema c)) (mock.configName c)
         namespace (stored res)].

(** The failures of a case are reported to its sub-test. *)
Definition case_failures (t : T) (c : mock.case) (res : case_results)
    : list (T * Message) :=
  let t := t +:+ "/" +:+ mock.name c in
  when_error t (created res).2
  ++ (if listed res is [] then [(t, Text "expected non-zero number of configs")]
      else [])
  ++ (if stored res is None then [(t, Text "expected to find stored config")]
      else []).
End Verdicts.

(** ** Accounts of a run

    What a run created and deleted, what read-back recorded, and when a run
    reports nothing. *)
Section Accounts.
Import config2 testing.

Definition is_Update (ev : Event) : bool :=
  match ev with EvUpdate _ _ => true | _ => false end.

(** The identity of a resource: its kind, name and namespace. *)
Definition config_identity (c : Config.t)
    : GroupVersionKind * string * string :=
  (Meta.GroupVersionKind (Config.Meta c), Config.Name c, Config.Namespace c).

(** The identities submitted to [Create], in order. *)
Definition created_ids (evs : list Event)
    : list (GroupVersionKind * string * string) :=
  omap (λ ev, match ev with
              | EvCreate c _ => Some (config_identity c)
              | _ => None
              end) evs.

(** The identities submitted to [Delete], in order. *)
Definition deleted_ids (evs : list Event)
    : list (GroupVersionKind * string * string) :=
  omap (λ ev, match ev with
              | EvDelete typ name namespace _ _ => Some (typ, name, namespace)
              | _ => None
              end) evs.

(** One turn of the loop of [verifyConfigsInStore] on its local [revs]:
    the revision read back is recorded under the index of the fixture when
    the read-back is right. *)
Definition record_rev (revs : gmap Z string) (x : Z * Config.t)
    (v1 : option Config.t) : gmap Z string :=
  match v1 with
  | Some v =>
      if mock.Compare x.2 v then <[x.1 := Config.ResourceVersion v]> revs
      else revs
  | None => revs
  end.

Definition recorded_revs (ord : list (Z * Config.t))
    (got : list (option Config.t)) : gmap Z string :=
  foldl (λ revs xv, record_rev revs xv.1 xv.2) ∅ (zip ord got).

(** The store passed negative-case verification. *)
Definition negative_passes (res : negative_results) : Prop :=
  is_Some (on_zero res).1.2 ∧ is_Some (on_zero res).2.2
  ∧ is_Some (on_invalid res).1.2 ∧ is_Some (on_invalid res).2.2
  ∧ is_Some (on_missing res).1.2 ∧ is_Some (on_missing res).2.2
  ∧ listed_unscoped res = [] ∧ got_missing res = None.

(** The store passed every step of [CheckMapInvariant]: no [Create] or
    [Delete] of a fixture returned an error, every fixture was read back
    right, the negative cases were rejected, and nothing is left. *)
Definition crud_passes (ov : list (Z * Config.t)) (res : crud_results)
    : Prop :=
  Forall (λ b, b.2 = None) (creations res)
  ∧ Forall2 (λ x v1, read_back_ok x.2 v1) ov (read_backs res)
  ∧ negative_passes (negatives res)
  ∧ Forall (λ err, err = None) (deletions res)
  ∧ remaining res = [].

(** Whenever [ev] is an [Update], it is on one of the three negative-case
    resources of [CheckMapInvariant]. *)
Definition updates_negative_only (schemas : collections.t) (ev : Event)
    : Prop :=
  match ev with
  | EvUpdate cfg _ =>
      cfg ∈ [Config.zero; mock.invalid_config schemas "";
             mock.missing_config schemas ""]
  | _ => True
  end.

(** [ev] is neither an [Update] nor a [Delete]. *)
Definition keeps_resources (ev : Event) : Prop :=
  is_Update ev = false ∧ is_Delete ev = false.

(** The store passed a case of [CheckIstioConfigTypes]. *)
Definition case_passes (res : case_results) : Prop :=
  (created res).2 = None ∧ listed res ≠ [] ∧ is_Some (stored res).
End Accounts.

(** * Properties *)

(** ** Composing runs *)
Section RunLemmas.
Import config2 testing.
Context {St : Type}.
Variable r : model.ConfigStore St.

Lemma Replay_app s1 e1 s2 e2 s3 :
  Replay r s1 e1 s2 → Replay r s2 e2 s3 → Replay r s1 (e1 ++ e2) s3.
Proof. induction 1; simpl; eauto using Replay. Qed.

Lemma Replay_one s ev s' : step r s ev s' → Replay r s [ev] s'.
Proof. eauto using Replay. Qed.

Lemma Runs_ret {A} (a : A) w : Runs r (mret a) w a [] [] w.
Proof. split; rewrite ?app_nil_r; eauto using Replay. Qed.

Lemma Runs_bind {A B} (m : M St A) (f : A → M St B) w a e1 f1 w1 b e2 f2 w2 :
  Runs r m w a e1 f1 w1 → Runs r (f a) w1 b e2 f2 w2 →
  Runs r (m ≫= f) w b (e1 ++ e2) (f1 ++ f2) w2.
Proof.
  intros [H1 H2 H3 H4] [G1 G2 G3 G4]. split.
  - unfold mbind, M_bind. by rewrite H1.
  - by rewrite G2, H2, app_assoc.
  - by rewrite G3, H3, app_assoc.
  - eauto using Replay_app.
Qed.

Lemma Runs_conv {A} (m : M St A) w a e f e' f' w' :
  Runs r m w a e f w' → e = e' → f = f' → Runs r m w a e' f' w'.
Proof. by intros ? <- <-. Qed.

Lemma Runs_call {A} (op : St → A * St) (ev : A → Event) w :
  (∀ s res s', op s = (res, s') → step r s (ev res) s') →
  ∃ res w', Runs r (mock.call op ev) w res [ev res] [] w'.
Proof.
  intros Hstep. destruct (op (store w)) as [res s'] eqn:E.
  exists res, {| store := s'; failures := failures w; ranges := ranges w;
                 calls := calls w ++ [ev res] |}.
  split; simpl; rewrite ?app_nil_r; eauto using Replay_one.
  unfold mock.call. by rewrite E.
Qed.

Lemma Runs_Schemas w :
  ∃ res w', Runs r (mock.r_Schemas r) w res [EvSchemas res] [] w'.
Proof. by apply Runs_call. Qed.

Lemma Runs_Get typ name namespace w :
  ∃ res w', Runs r (mock.r_Get r typ name namespace) w res
                   [EvGet typ name namespace res] [] w'.
Proof. by apply (Runs_call _ (EvGet typ name namespace)). Qed.

Lemma Runs_List typ namespace w :
  ∃ res w', Runs r (mock.r_List r typ namespace) w res
                   [EvList typ namespace res] [] w'.
Proof. by apply (Runs_call _ (EvList typ namespace)). Qed.

Lemma Runs_Create cfg w :
  ∃ res w', Runs r (mock.r_Create r cfg) w res [EvCreate cfg res] [] w'.
Proof. by apply (Runs_call _ (EvCreate cfg)). Qed.

Lemma Runs_Update cfg w :
  ∃ res w', Runs r (mock.r_Update r cfg) w res [EvUpdate cfg res] [] w'.
Proof. by apply (Runs_call _ (EvUpdate cfg)). Qed.

Lemma Runs_Delete typ name namespace rv w :
  ∃ res w', Runs r (mock.r_Delete r typ name namespace rv) w res
                   [EvDelete typ name namespace rv res] [] w'.
Proof. by apply (Runs_call _ (EvDelete typ name namespace rv)). Qed.

Lemma Runs_Error t msg w :
  ∃ w', Runs r (mock.t_Error t msg) w tt [] [(t, msg)] w'.
Proof.
  eexists. split; [reflexivity|simpl..]; rewrite ?app_nil_r;
    eauto using Replay.
Qed.

Lemma Runs_range rangeOrder elts w :
  ∃ k w', Runs r (mock.range rangeOrder elts) w (rangeOrder k elts) [] [] w'.
Proof.
  eexists (ranges w), _. split; [reflexivity|simpl..]; rewrite ?app_nil_r;
    eauto using Replay.
Qed.

(** A conditional [t.Error]. *)
Lemma Runs_Error_if (b : bool) t msg w :
  ∃ w', Runs r (if b then mock.t_Error t msg else mret tt) w tt []
               (if b then [(t, msg)] else []) w'.
Proof.
  destruct b; [apply Runs_Error|]. eexists. apply Runs_ret.
Qed.

Lemma Runs_when_error t err w :
  ∃ w', Runs r (if err is Some e then mock.t_Error t (OfError e) else mret tt)
               w tt [] (when_error t err) w'.
Proof.
  destruct err; [apply Runs_Error|]. eexists. apply Runs_ret.
Qed.

(** Loops: one observation [b] per element visited. *)
Lemma Runs_forM_ {A B} (f : A → M St unit) (ev : A → B → list Event)
    (fl : A → B → list (T * Message)) (l : list A) :
  (∀ x w, ∃ b w', Runs r (f x) w tt (ev x b) (fl x b) w') →
  ∀ w, ∃ bs w', length bs = length l ∧
    Runs r (forM_ l f) w tt (concat (zip_with ev l bs))
         (concat (zip_with fl l bs)) w'.
Proof.
  intros Hf. induction l as [|x l IH]; intros w.
  - exists [], w. split; [done|]. apply Runs_ret.
  - destruct (Hf x w) as (b & w1 & H1).
    destruct (IH w1) as (bs & w2 & Hlen & H2).
    exists (b :: bs), w2. split; [simpl; congruence|].
    simpl. eapply Runs_bind; eauto.
Qed.

Lemma Runs_foldM {A B C} (f : C → A → M St C) (ev : A → B → list Event)
    (fl : A → B → list (T * Message)) (l : list A) :
  (∀ acc x w, ∃ b acc' w', Runs r (f acc x) w acc' (ev x b) (fl x b) w') →
  ∀ acc w, ∃ bs acc' w', length bs = length l ∧
    Runs r (foldM f acc l) w acc' (concat (zip_with ev l bs))
         (concat (zip_with fl l bs)) w'.
Proof.
  intros Hf. induction l as [|x l IH]; intros acc w.
  - exists [], acc, w. split; [done|]. apply Runs_ret.
  - destruct (Hf acc x w) as (b & acc1 & w1 & H1).
    destruct (IH acc1 w1) as (bs & acc2 & w2 & Hlen & H2).
    exists (b :: bs), acc2, w2. split; [simpl; congruence|].
    simpl. eapply Runs_bind; eauto.
Qed.

Lemma concat_zip_with_singleton {A B C} (g : A → B → C) (l : list A)
    (bs : list B) :
  concat (zip_with (λ x b, [g x b]) l bs) = zip_with g l bs.
Proof.
  revert bs. induction l as [|x l IH]; intros [|b bs]; simpl; f_equal; auto.
Qed.

Lemma zip_with_ignore_l {A B C} (g : B → C) (l : list A) (bs : list B) :
  length bs = length l → zip_with (λ _ b, g b) l bs = g <$> bs.
Proof.
  revert bs. induction l as [|x l IH]; intros [|b bs]; simpl; try done.
  intros [=]. f_equal. auto.
Qed.
End RunLemmas.

(** ** The steps of the harness, run on an arbitrary store *)
Section HarnessRuns.
Import config2 testing.
Context {St : Type}.
Variable r : model.ConfigStore St.
Variable schemas : collections.t.
Variable rangeOrder : nat → gmap Z Config.t → list (Z * Config.t).

#[local] Abbreviation mockGvk := (mock.mockGvk schemas).

Lemma read_back_failure_Some t elt v :
  read_back_failure t elt (Some v)
  = if mock.Compare elt v then [] else [(t, Wanted elt (Some v))].
Proof.
  unfold read_back_failure. destruct (mock.Compare elt v) eqn:E.
  - rewrite decide_True; [done|]. by exists v.
  - rewrite decide_False; [done|]. intros (v' & [= <-] & ?). congruence.
Qed.

Lemma read_back_failure_None t elt :
  read_back_failure t elt None = [(t, Wanted elt None)].
Proof.
  unfold read_back_failure. rewrite decide_False; [done|].
  by intros (v' & [=] & _).
Qed.

Lemma verifyConfigTypes_found t w s s1 :
  model.Schemas r (store w) = (s, s1) →
  is_Some (collection.FindByGroupVersionKind s mockGvk) →
  ∃ w', Runs r (mock.verifyConfigTypes schemas r t) w tt [EvSchemas s] [] w'.
Proof.
  intros Hs [sch Hfind]. unfold mock.verifyConfigTypes.
  destruct (Runs_Schemas r w) as (s' & w1 & H1).
  assert (s' = s) as ->.
  { destruct H1 as [_ _ _ Hr]. inversion Hr; subst. simpl in *. congruence. }
  exists w1. eapply Runs_conv.
  - eapply Runs_bind; [exact H1|]. rewrite Hfind. apply Runs_ret.
  - done.
  - done.
Qed.

Lemma verifyConfigTypes_missing t w s s1 :
  model.Schemas r (store w) = (s, s1) →
  collection.FindByGroupVersionKind s mockGvk = None →
  mock.verifyConfigTypes schemas r t w
  = Aborted {| store := s1;
               failures := failures w
                           ++ [(t, Text "expected config mock types")];
               ranges := ranges w;
               calls := calls w ++ [EvSchemas s] |}.
Proof.
  intros Hs Hfind.
  unfold mock.verifyConfigTypes, mock.r_Schemas, mock.call, mbind, M_bind.
  rewrite Hs, Hfind. reflexivity.
Qed.

Lemma createConfigsInStore_runs t elts w :
  ∃ k res w',
    length res = length (rangeOrder k elts) ∧
    Runs r (mock.createConfigsInStore rangeOrder r t elts) w tt
      (create_calls (rangeOrder k elts) res) (create_failures t res) w'.
Proof.
  unfold mock.createConfigsInStore.
  destruct (Runs_range r rangeOrder elts w) as (k & w1 & H1).
  edestruct (Runs_forM_ r
    (λ '(_, elt), '(_, err) ← mock.r_Create r elt;
                  if err is Some e then mock.t_Error t (OfError e)
                  else mret tt)
    (λ (x : Z * Config.t) (b : Config.t * option error), [EvCreate x.2 b])
    (λ _ b, when_error t b.2) (rangeOrder k elts)) as (res & w2 & Hlen & H2).
  { intros [i elt] w0.
    destruct (Runs_Create r elt w0) as ([rev err] & w0' & G1).
    destruct (Runs_when_error r t err w0') as (w0'' & G2).
    exists (rev, err), w0''. eapply Runs_conv.
    - eapply Runs_bind; [exact G1|exact G2].
    - done.
    - done. }
  exists k, res, w2. split; [done|].
  eapply Runs_conv.
  - eapply Runs_bind; [exact H1|exact H2].
  - simpl. apply concat_zip_with_singleton.
  - simpl. unfold create_failures. by rewrite zip_with_ignore_l.
Qed.

Lemma verifyConfigsInStore_revs_runs t elts w :
  ∃ k got revs w',
    length got = length (rangeOrder k elts) ∧
    Runs r (mock.verifyConfigsInStore_revs schemas rangeOrder r t elts) w revs
      (read_back_calls schemas (rangeOrder k elts) got)
      (read_back_failures t (rangeOrder k elts) got) w'.
Proof.
  unfold mock.verifyConfigsInStore_revs.
  destruct (Runs_range r rangeOrder elts w) as (k & w1 & H1).
  edestruct (Runs_foldM r
    (λ (revs : gmap Z string) '(i, elt),
       v1 ← mock.r_Get r mockGvk (Config.Name elt) (Config.Namespace elt);
       match v1 with
       | Some v =>
           if negb (mock.Compare elt v)
           then mock.t_Error t (Wanted elt v1) ;; mret revs
           else mret (<[i := Config.ResourceVersion v]> revs)
       | None => mock.t_Error t (Wanted elt v1) ;; mret revs
       end)
    (λ (x : Z * Config.t) v1, [read_back_call schemas x.2 v1])
    (λ x v1, read_back_failure t x.2 v1) (rangeOrder k elts))
    as (got & revs & w2 & Hlen & H2).
  { intros acc [i elt] w0.
    destruct (Runs_Get r mockGvk (Config.Name elt) (Config.Namespace elt) w0)
      as (v1 & w0' & G1).
    destruct v1 as [v|].
    - destruct (mock.Compare elt v) eqn:E.
      + exists (Some v), (<[i := Config.ResourceVersion v]> acc), w0'.
        eapply Runs_conv.
        * eapply Runs_bind; [exact G1|]. simpl. rewrite E. apply Runs_ret.
        * done.
        * simpl. by rewrite read_back_failure_Some, E.
      + destruct (Runs_Error r t (Wanted elt (Some v)) w0') as (w0'' & G2).
        exists (Some v), acc, w0''. eapply Runs_conv.
        * eapply Runs_bind; [exact G1|]. simpl. rewrite E. simpl.
          eapply Runs_bind; [exact G2|]. apply Runs_ret.
        * done.
        * simpl. by rewrite read_back_failure_Some, E.
    - destruct (Runs_Error r t (Wanted elt None) w0') as (w0'' & G2).
      exists None, acc, w0''. eapply Runs_conv.
      + eapply Runs_bind; [exact G1|]. simpl.
        eapply Runs_bind; [exact G2|]. apply Runs_ret.
      + done.
      + simpl. by rewrite read_back_failure_None. }
  exists k, got, revs, w2. split; [done|].
  eapply Runs_conv.
  - eapply Runs_bind; [exact H1|exact H2].
  - simpl. apply concat_zip_with_singleton.
  - done.
Qed.

Lemma verifyConfigsInStore_runs t elts w :
  ∃ k got w',
    length got = length (rangeOrder k elts) ∧
    Runs r (mock.verifyConfigsInStore schemas rangeOrder r t elts) w tt
      (read_back_calls schemas (rangeOrder k elts) got)
      (read_back_failures t (rangeOrder k elts) got) w'.
Proof.
  destruct (verifyConfigsInStore_revs_runs t elts w)
    as (k & got & revs & w' & Hlen & H).
  exists k, got, w'. split; [done|]. unfold mock.verifyConfigsInStore.
  eapply Runs_conv.
  - eapply Runs_bind; [exact H|apply Runs_ret].
  - by rewrite app_nil_r.
  - by rewrite app_nil_r.
Qed.

Lemma getFirstRevision_runs elts w :
  ∃ k w', Runs r (mock.getFirstRevision rangeOrder elts) w
                 (first_revision (rangeOrder k elts)) [] [] w'.
Proof.
  unfold mock.getFirstRevision.
  destruct (Runs_range r rangeOrder elts w) as (k & w1 & H1).
  exists k, w1. eapply Runs_conv.
  - eapply Runs_bind; [exact H1|].
    destruct (rangeOrder k elts) as [|[i elt] l]; apply Runs_ret.
  - done.
  - done.
Qed.

Lemma assertError_runs t cfg w :
  ∃ res w', Runs r (mock.assertError t r cfg) w tt
                   (assertError_calls cfg res) (assertError_failures t res) w'.
Proof.
  unfold mock.assertError.
  destruct (Runs_Create r cfg w) as ([rev1 err1] & w1 & H1).
  assert (∃ w2, Runs r
    (if err1 is None
     then mock.t_Error t (Text "expected error posting invalid object")
     else mret tt) w1 tt []
    (unless_error t "expected error posting invalid object" (rev1, err1)) w2)
    as (w2 & H2).
  { destruct err1; [eexists; apply Runs_ret|apply Runs_Error]. }
  destruct (Runs_Update r cfg w2) as ([rev2 err2] & w3 & H3).
  assert (∃ w4, Runs r
    (if err2 is None
     then mock.t_Error t (Text "expected error updating invalid object")
     else mret tt) w3 tt []
    (unless_error t "expected error updating invalid object" (rev2, err2)) w4)
    as (w4 & H4).
  { destruct err2; [eexists; apply Runs_ret|apply Runs_Error]. }
  exists ((rev1, err1), (rev2, err2)), w4. eapply Runs_conv.
  - eapply Runs_bind; [exact H1|]. simpl.
    eapply Runs_bind; [exact H2|].
    eapply Runs_bind; [exact H3|exact H4].
  - done.
  - unfold assertError_failures. simpl. by rewrite ?app_nil_r.
Qed.

Lemma verifyMissingElements_runs t w :
  ∃ l cfg w', Runs r (mock.verifyMissingElements schemas r t) w tt
                     (missing_calls schemas l cfg) (missing_failures t l cfg)
                     w'.
Proof.
  unfold mock.verifyMissingElements.
  destruct (Runs_List r mockGvk "" w) as (l & w1 & H1).
  destruct (Runs_Error_if r (bool_decide (0 < length l)%nat) t
              (Text "unexpected objects for missing type") w1) as (w2 & H2).
  destruct (Runs_Get r mockGvk "missing" "" w2) as (cfg & w3 & H3).
  assert (∃ w4, Runs r
    (if cfg is Some _
     then mock.t_Error t (Text "unexpected configuration object found")
     else mret tt) w3 tt []
    (if cfg is None then []
     else [(t, Text "unexpected configuration object found")]) w4)
    as (w4 & H4).
  { destruct cfg; [apply Runs_Error|eexists; apply Runs_ret]. }
  exists l, cfg, w4. eapply Runs_conv.
  - eapply Runs_bind; [exact H1|]. eapply Runs_bind; [exact H2|].
    eapply Runs_bind; [exact H3|exact H4].
  - done.
  - unfold missing_failures. destruct l; [done|].
    rewrite bool_decide_true by (simpl; lia). done.
Qed.

Lemma verifyErrorsOnInvalidOperations_runs t elts w :
  ∃ k1 k2 res w',
    Runs r (mock.verifyErrorsOnInvalidOperations schemas rangeOrder r t elts)
      w tt
      (negative_calls schemas (first_revision (rangeOrder k1 elts))
                      (first_revision (rangeOrder k2 elts)) res)
      (negative_failures t res) w'.
Proof.
  unfold mock.verifyErrorsOnInvalidOperations.
  destruct (getFirstRevision_runs elts w) as (k1 & w1 & H1).
  destruct (getFirstRevision_runs elts w1) as (k2 & w2 & H2).
  destruct (assertError_runs t Config.zero w2) as (r0 & w3 & H3).
  destruct (assertError_runs t
    (mock.invalid_config schemas (first_revision (rangeOrder k1 elts))) w3)
    as (r1 & w4 & H4).
  destruct (assertError_runs t
    (mock.missing_config schemas (first_revision (rangeOrder k2 elts))) w4)
    as (r2 & w5 & H5).
  destruct (verifyMissingElements_runs t w5) as (l & cfg & w6 & H6).
  exists k1, k2,
    {| on_zero := r0; on_invalid := r1; on_missing := r2;
       listed_unscoped := l; got_missing := cfg |}, w6.
  eapply Runs_conv.
  - eapply Runs_bind; [exact H1|]. eapply Runs_bind; [exact H2|].
    eapply Runs_bind; [exact H3|]. eapply Runs_bind; [exact H4|].
    eapply Runs_bind; [exact H5|exact H6].
  - done.
  - done.
Qed.

Lemma deleteConfigsFromStore_runs t namespace n w :
  ∃ errs l w',
    length errs = length (seqZ 0 n) ∧
    Runs r (mock.deleteConfigsFromStore schemas r t namespace n) w tt
      (delete_calls schemas namespace n errs l) (delete_failures t errs l) w'.
Proof.
  unfold mock.deleteConfigsFromStore.
  edestruct (Runs_forM_ r
    (λ i, err ← mock.r_Delete r mockGvk
                  (Config.Name (mock.Make schemas namespace i)) namespace None;
          if err is Some e then mock.t_Error t (OfError e) else mret tt)
    (λ i err, [delete_call schemas namespace i err])
    (λ _ err, when_error t err) (seqZ 0 n)) as (errs & w1 & Hlen & H1).
  { intros i w0.
    destruct (Runs_Delete r mockGvk
                (Config.Name (mock.Make schemas namespace i)) namespace None w0)
      as (err & w0' & G1).
    destruct (Runs_when_error r t err w0') as (w0'' & G2).
    exists err, w0''. eapply Runs_conv.
    - eapply Runs_bind; [exact G1|exact G2].
    - done.
    - done. }
  destruct (Runs_List r mockGvk namespace w1) as (l & w2 & H2).
  destruct (Runs_Error_if r (bool_decide (length l ≠ 0%nat)) t
              (WantedZero (length l) l) w2) as (w3 & H3).
  exists errs, l, w3. split; [done|].
  eapply Runs_conv.
  - eapply Runs_bind; [exact H1|]. eapply Runs_bind; [exact H2|exact H3].
  - unfold delete_calls. by rewrite concat_zip_with_singleton.
  - unfold delete_failures. rewrite zip_with_ignore_l by done.
    f_equal. simpl. by destruct l.
Qed.

(** The whole of [CheckMapInvariant] on a store that has the mock kind. *)
Lemma CheckMapInvariant_runs t namespace n w s s1 :
  model.Schemas r (store w) = (s, s1) →
  is_Some (collection.FindByGroupVersionKind s mockGvk) →
  let elts := mock.createConfigs schemas namespace n in
  ∃ kc kv k1 k2 res w',
    length (creations res) = length (rangeOrder kc elts) ∧
    length (read_backs res) = length (rangeOrder kv elts) ∧
    length (deletions res) = length (seqZ 0 n) ∧
    Runs r (mock.CheckMapInvariant schemas rangeOrder r t namespace n) w tt
      (crud_calls schemas s namespace n (rangeOrder kc elts)
         (rangeOrder kv elts) (first_revision (rangeOrder k1 elts))
         (first_revision (rangeOrder k2 elts)) res)
      (crud_failures t (rangeOrder kv elts) res) w'.
Proof.
  intros Hs Hfind elts. unfold mock.CheckMapInvariant. fold elts.
  destruct (verifyConfigTypes_found t w s s1 Hs Hfind) as (w1 & H1).
  destruct (createConfigsInStore_runs t elts w1) as (kc & res & w2 & L2 & H2).
  destruct (verifyConfigsInStore_runs t elts w2) as (kv & got & w3 & L3 & H3).
  destruct (verifyErrorsOnInvalidOperations_runs t elts w3)
    as (k1 & k2 & neg & w4 & H4).
  destruct (deleteConfigsFromStore_runs t namespace n w4)
    as (errs & l & w5 & L5 & H5).
  exists kc, kv, k1, k2,
    {| creations := res; read_backs := got; negatives := neg;
       deletions := errs; remaining := l |}, w5.
  split; [done|]. split; [done|]. split; [done|].
  eapply Runs_conv.
  - eapply Runs_bind; [exact H1|]. eapply Runs_bind; [exact H2|].
    eapply Runs_bind; [exact H3|]. eapply Runs_bind; [exact H4|exact H5].
  - done.
  - done.
Qed.

(** A sub-test whose body returns. *)
Lemma Runs_Run t name (f : T → M St unit) w evs fs w' :
  Runs r (f (t +:+ "/" +:+ name)) w tt evs fs w' →
  Runs r (mock.t_Run t name f) w tt evs fs w'.
Proof.
  intros [H1 H2 H3 H4]. split; try done. unfold mock.t_Run. by rewrite H1.
Qed.

Lemma checkCase_runs namespace c t w :
  ∃ res w', Runs r (mock.t_Run t (mock.name c) (mock.checkCase r namespace c))
                   w tt (case_calls namespace c res) (case_failures t c res)
                   w'.
Proof.
  set (t' := t +:+ "/" +:+ mock.name c).
  destruct (Runs_Create r (case_config namespace c) w)
    as ([rev err] & w1 & H1).
  destruct (Runs_when_error r t' err w1) as (w2 & H2).
  destruct (Runs_List r (resource.GroupVersionKind (mock.schema c)) namespace
              w2) as (l & w3 & H3).
  destruct (Runs_Error_if r (bool_decide (length l = 0%nat)) t'
              (Text "expected non-zero number of configs") w3) as (w4 & H4).
  destruct (Runs_Get r (resource.GroupVersionKind (mock.schema c))
              (mock.configName c) namespace w4) as (cfg & w5 & H5).
  assert (∃ w6, Runs r
    (if cfg is None
     then mock.t_Error t' (Text "expected to find stored config")
     else mret tt) w5 tt []
    (if cfg is None then [(t', Text "expected to find stored config")]
     else []) w6) as (w6 & H6).
  { destruct cfg; [eexists; apply Runs_ret|apply Runs_Error]. }
  exists {| created := (rev, err); listed := l; stored := cfg |}, w6.
  apply Runs_Run. unfold mock.checkCase. eapply Runs_conv.
  - eapply Runs_bind.
    { replace (Config.Build_t _ _) with (case_config namespace c); [exact H1|].
      unfold case_config.
      by destruct (resource.IsClusterScoped (mock.schema c)). }
    simpl. eapply Runs_bind; [exact H2|]. eapply Runs_bind; [exact H3|].
    eapply Runs_bind; [exact H4|]. eapply Runs_bind; [exact H5|exact H6].
  - done.
  - unfold case_failures. fold t'. simpl. by destruct l.
Qed.

Lemma CheckIstioConfigTypes_runs namespace t w :
  ∃ res w',
    length res = length (mock.cases schemas) ∧
    Runs r (mock.CheckIstioConfigTypes schemas r namespace t) w tt
      (concat (zip_with (case_calls namespace) (mock.cases schemas) res))
      (concat (zip_with (case_failures t) (mock.cases schemas) res)) w'.
Proof.
  unfold mock.CheckIstioConfigTypes.
  apply (Runs_forM_ r _ (case_calls namespace) (case_failures t)).
  intros c w0. apply checkCase_runs.
Qed.
End HarnessRuns.

(** ** Fixtures and equality *)
Section Fixtures.
Import config2 testing.
Variable schemas : collections.t.

#[local] Abbreviation mockGvk := (mock.mockGvk schemas).
#[local] Abbreviation Make := (mock.Make schemas).
#[local] Abbreviation createConfigs := (mock.createConfigs schemas).

Lemma Make_Name namespace i :
  Config.Name (Make namespace i) = "mock-config" +:+ pretty i.
Proof. reflexivity. Qed.

Lemma Make_Name_inj namespace namespace' i j :
  Config.Name (Make namespace i) = Config.Name (Make namespace' j) → i = j.
Proof.
  rewrite !Make_Name. intros H.
  apply (inj (String.append "mock-config")) in H. by apply (inj pretty).
Qed.

Lemma foldl_insert_lookup {V} (f : Z → V) (l : list Z) (m : gmap Z V) i :
  foldl (λ m i, <[i := f i]> m) m l !! i
  = if decide (i ∈ l) then Some (f i) else m !! i.
Proof.
  revert m. induction l as [|j l IH]; intros m.
  - destruct (decide (i ∈ [])) as [H|H]; [|done]. by apply elem_of_nil in H.
  - cbn [foldl]. rewrite IH.
    destruct (decide (i ∈ l)) as [Hl|Hl], (decide (i ∈ j :: l)) as [Hjl|Hjl];
      try done.
    + destruct Hjl. by right.
    + apply elem_of_cons in Hjl as [->|?]; [|done].
      by rewrite lookup_insert_eq.
    + rewrite lookup_insert_ne; [done|]. intros ->. apply Hjl. by left.
Qed.

Lemma createConfigs_lookup namespace n i :
  createConfigs namespace n !! i
  = if decide (0 ≤ i < n) then Some (Make namespace i) else None.
Proof.
  unfold mock.createConfigs. rewrite foldl_insert_lookup, lookup_empty.
  destruct (decide (0 ≤ i < n)) as [H|H].
  - rewrite decide_True; [done|]. apply elem_of_seqZ. lia.
  - rewrite decide_False; [done|]. rewrite elem_of_seqZ. lia.
Qed.

Lemma createConfigs_lookup_Some namespace n i f :
  createConfigs namespace n !! i = Some f ↔ 0 ≤ i < n ∧ f = Make namespace i.
Proof.
  rewrite createConfigs_lookup. destruct (decide (0 ≤ i < n)) as [H|H].
  - split; [by intros [= <-]|by intros [_ ->]].
  - split; [done|]. by intros [? _].
Qed.

(** No fixture carries a revision. *)
Lemma createConfigs_ResourceVersion namespace n i f :
  createConfigs namespace n !! i = Some f → Config.ResourceVersion f = "".
Proof. intros [_ ->]%createConfigs_lookup_Some. reflexivity. Qed.

Lemma DeepEqual_map_eq a b : reflect.DeepEqual_map a b = true ↔ a = b.
Proof.
  destruct a as [m1|], b as [m2|]; simpl; try (split; [done|congruence]).
  - rewrite andb_true_iff, !bool_decide_eq_true. split.
    + intros [Hsize Hall]. f_equal.
      apply map_subseteq_size_eq; [|by rewrite Hsize].
      apply map_subseteq_spec. exact Hall.
    + intros [= ->]. split; [done|]. by intros k v.
Qed.

Lemma DeepEqual_bytes_eq l1 l2 : reflect.DeepEqual_bytes l1 l2 = true ↔ l1 = l2.
Proof.
  revert l2. induction l1 as [|x l1 IH]; intros [|y l2]; simpl; try done.
  rewrite andb_true_iff, bool_decide_eq_true, IH.
  split; [by intros [-> ->]|by intros [= -> ->]].
Qed.

Lemma DeepEqual_internal_eq a b :
  reflect.DeepEqual_internal a b = true ↔ a = b.
Proof.
  unfold reflect.DeepEqual_internal.
  destruct a as [s1 c1 [u1|]], b as [s2 c2 [u2|]]; simpl;
    rewrite ?andb_true_iff, ?bool_decide_eq_true, ?DeepEqual_bytes_eq.
  - split; [by intros [[-> ->] ->]|by intros [= -> -> ->]].
  - split; [by intros [_ ?]|done].
  - split; [by intros [_ ?]|done].
  - split; [by intros [[-> ->] _]|by intros [= -> ->]].
Qed.

Lemma DeepEqual_ConfigPair_eq a b :
  reflect.DeepEqual_ConfigPair a b = true ↔ a = b.
Proof.
  unfold reflect.DeepEqual_ConfigPair.
  rewrite !andb_true_iff, !bool_decide_eq_true, DeepEqual_internal_eq.
  destruct a, b; simpl.
  split; [by intros [[-> ->] ->]|by intros [= -> -> ->]].
Qed.

Lemma DeepEqual_element_eq a b : reflect.DeepEqual_element a b = true ↔ a = b.
Proof.
  destruct a as [x|], b as [y|]; simpl; try done.
  rewrite DeepEqual_ConfigPair_eq. split; [by intros ->|by intros [= ->]].
Qed.

Lemma DeepEqual_elements_eq l1 l2 :
  reflect.DeepEqual_elements l1 l2 = true ↔ l1 = l2.
Proof.
  revert l2. induction l1 as [|x l1 IH]; intros [|y l2]; simpl; try done.
  rewrite andb_true_iff, DeepEqual_element_eq, IH.
  split; [by intros [-> ->]|by intros [= -> ->]].
Qed.

Lemma DeepEqual_Pairs_eq a b : reflect.DeepEqual_Pairs a b = true ↔ a = b.
Proof.
  destruct a as [l1|], b as [l2|]; simpl; try done.
  rewrite DeepEqual_elements_eq. split; [by intros ->|by intros [= ->]].
Qed.

Lemma DeepEqual_MockConfig_eq a b :
  reflect.DeepEqual_MockConfig a b = true ↔ a = b.
Proof.
  unfold reflect.DeepEqual_MockConfig.
  rewrite !andb_true_iff, bool_decide_eq_true, DeepEqual_internal_eq,
    DeepEqual_Pairs_eq.
  destruct a, b; simpl.
  split; [by intros [[-> ->] ->]|by intros [= -> -> ->]].
Qed.

Lemma DeepEqual_Value_eq a : ∀ b, reflect.DeepEqual_Value a b = true ↔ a = b.
Proof.
  revert a. fix IH 1. intros a b.
  assert (Hl : ∀ l1 l2 : list go.Value,
    (fix each (l1 l2 : list go.Value) : bool :=
       match l1, l2 with
       | [], [] => true
       | x :: l1, y :: l2 => reflect.DeepEqual_Value x y && each l1 l2
       | _, _ => false
       end) l1 l2 = true ↔ l1 = l2).
  { induction l1 as [|x l1 IHl]; intros [|y l2]; try done.
    rewrite andb_true_iff, IH, IHl.
    split; [by intros [-> ->]|by intros [= -> ->]]. }
  destruct a, b; simpl; try done;
    rewrite ?bool_decide_eq_true, ?Hl, ?IH;
    (split; [by intros ->|by intros [= ->]]).
Qed.

Lemma DeepEqual_Spec_eq a b : reflect.DeepEqual_Spec a b = true ↔ a = b.
Proof.
  destruct a, b; simpl; try done;
    rewrite ?andb_true_iff, ?bool_decide_eq_true, ?DeepEqual_MockConfig_eq,
      ?DeepEqual_Value_eq;
    try (split; [by intros ->|by intros [= ->]]).
  split; [by intros [-> ->]|by intros [= -> ->]].
Qed.

Lemma DeepEqual_Meta_eq a b : reflect.DeepEqual_Meta a b = true ↔ a = b.
Proof.
  unfold reflect.DeepEqual_Meta.
  rewrite !andb_true_iff, !bool_decide_eq_true, !DeepEqual_map_eq.
  destruct a, b; simpl. split.
  - by intros [[[[[[-> ->] ->] ->] ->] ->] ->].
  - by intros [= -> -> -> -> -> -> ->].
Qed.

(** Deep equality of two resources is equality of their representations. *)
Lemma DeepEqual_eq a b : reflect.DeepEqual a b = true ↔ a = b.
Proof.
  unfold reflect.DeepEqual.
  rewrite andb_true_iff, DeepEqual_Meta_eq, DeepEqual_Spec_eq.
  destruct a, b; simpl. split; [by intros [-> ->]|by intros [= -> ->]].
Qed.

(** C2. Equality relation: [Compare a b] is true exactly when [a] and [b]
    are structurally equal once the revision and the creation time of both
    are zeroed, that is, exactly when they agree on kind, name, namespace,
    labels, annotations and payload.  The payload is the value the [Spec]
    interface holds, as [reflect.DeepEqual] walks it: its dynamic type, its
    exported fields and its internal state, a nil map or slice being
    different from an empty one. *)
Theorem Compare_iff (a b : Config.t) :
  (mock.Compare a b = true ↔
     Config.set_CreationTimestamp time.zero (Config.set_ResourceVersion "" a)
     = Config.set_CreationTimestamp time.zero (Config.set_ResourceVersion "" b))
  ∧ (mock.Compare a b = true ↔
       Meta.GroupVersionKind (Config.Meta a)
       = Meta.GroupVersionKind (Config.Meta b)
       ∧ Config.Name a = Config.Name b
       ∧ Config.Namespace a = Config.Namespace b
       ∧ Meta.Labels (Config.Meta a) = Meta.Labels (Config.Meta b)
       ∧ Meta.Annotations (Config.Meta a) = Meta.Annotations (Config.Meta b)
       ∧ Config.Spec a = Config.Spec b).
Proof.
  unfold mock.Compare. rewrite DeepEqual_eq. split; [done|].
  destruct a as [[ga na nsa la aa ra ca] sa], b as [[gb nb nsb lb ab rb cb] sb].
  unfold Config.set_CreationTimestamp, Config.set_ResourceVersion,
    Meta.set_CreationTimestamp, Meta.set_ResourceVersion,
    Config.Name, Config.Namespace; simpl.
  split.
  - intros [= -> -> -> -> -> ->]. done.
  - intros (-> & -> & -> & -> & -> & ->). done.
Qed.

(** C8. FixtureFactory: [Make namespace i] is the resource of the mock kind
    named ["mock-config"] followed by the decimal numeral of [i], in
    [namespace], with the label [key] and the annotation [annotationkey]
    set to that name, and a payload whose [Key] is that name and whose only
    pair holds the decimal numeral of [i]; distinct indices give distinct
    names (for five fixtures, [mock-config0] to [mock-config4]); and
    [createConfigs namespace n] maps exactly the indices [0 .. n-1], each to
    [Make namespace i]. *)
Theorem Make_createConfigs_spec (namespace : string) :
  (∀ i, let name := "mock-config" +:+ pretty i in
     Make namespace i
     = {| Config.Meta :=
            {| Meta.GroupVersionKind := mockGvk; Meta.Name := name;
               Meta.Namespace := namespace;
               Meta.Labels := Some {[ "key" := name ]};
               Meta.Annotations := Some {[ "annotationkey" := name ]};
               Meta.ResourceVersion := "";
               Meta.CreationTimestamp := time.zero |};
          Config.Spec :=
            SpecMockConfig
              {| config.MockConfig.internal := protoimpl.zero;
                 config.MockConfig.Key := name;
                 config.MockConfig.Pairs :=
                   Some [ Some
                     {| config.ConfigPair.internal := protoimpl.zero;
                        config.ConfigPair.Key := "key";
                        config.ConfigPair.Value := pretty i |} ] |} |})
  ∧ (∀ namespace' i j,
       Config.Name (Make namespace i) = Config.Name (Make namespace' j) →
       i = j)
  ∧ Config.Name <$> (Make namespace <$> seqZ 0 5)
    = ["mock-config0"; "mock-config1"; "mock-config2"; "mock-config3";
       "mock-config4"]
  ∧ (∀ n i, createConfigs namespace n !! i
            = if decide (0 ≤ i < n) then Some (Make namespace i) else None).
Proof.
  split; [done|]. split; [apply Make_Name_inj|]. split; [done|].
  apply createConfigs_lookup.
Qed.
End Fixtures.

(** ** The checks, over every order a [range] loop may take *)
Section Claims.
Import config2 testing.
Context {St : Type}.
Variable schemas : collections.t.
Variable rangeOrder : nat → gmap Z Config.t → list (Z * Config.t).

(** A [range] loop visits every entry of the map once. *)
Hypothesis rangeOrder_perm : ∀ k elts, rangeOrder k elts ≡ₚ map_to_list elts.

#[local] Abbreviation mockGvk' := (mock.mockGvk schemas).

Lemma first_revision_borrowed elts ord :
  ord ≡ₚ map_to_list elts → borrowed elts (first_revision ord).
Proof.
  intros Hperm. destruct ord as [|[i f] ord].
  - left. split; [|done]. apply map_to_list_empty_iff.
    by apply Permutation_nil.
  - right. exists i, f. split; [|done]. apply elem_of_map_to_list.
    rewrite <- Hperm. by left.
Qed.

Lemma first_revision_fixtures namespace n ord :
  ord ≡ₚ map_to_list (mock.createConfigs schemas namespace n) →
  first_revision ord = "".
Proof.
  intros [[_ ->]|(i & f & Hf & ->)]%first_revision_borrowed; [done|].
  by eapply createConfigs_ResourceVersion.
Qed.

Lemma read_back_covers t (ord : list (Z * Config.t)) got x :
  x ∈ ord → length got = length ord →
  ∃ v1, read_back_call schemas x.2 v1 ∈ read_back_calls schemas ord got
        ∧ (read_back_ok x.2 v1
           ∨ (t, Wanted x.2 v1) ∈ read_back_failures t ord got).
Proof.
  unfold read_back_calls, read_back_failures.
  intros Hx. revert got. induction ord as [|y ord IH]; intros got Hlen.
  - by apply elem_of_nil in Hx.
  - destruct got as [|v got]; [done|]. injection Hlen as Hlen.
    apply elem_of_cons in Hx as [->|Hx].
    + exists v. split; [by left|]. simpl. unfold read_back_failure at 1.
      destruct (decide (read_back_ok y.2 v)); [by left|].
      right. by left.
    + destruct (IH Hx got Hlen) as (v1 & Hcall & Hres).
      exists v1. split; [by right|].
      destruct Hres as [?|Hin]; [by left|]. right. simpl.
      apply elem_of_app. by right.
Qed.

Lemma read_back_failures_sound t (ord : list (Z * Config.t)) got t' msg :
  (t', msg) ∈ read_back_failures t ord got →
  t' = t ∧ ∃ x v1, x ∈ ord ∧ msg = Wanted x.2 v1 ∧ ¬ read_back_ok x.2 v1.
Proof.
  unfold read_back_failures. revert got.
  induction ord as [|y ord IH]; intros got Hin.
  - by apply elem_of_nil in Hin.
  - destruct got as [|v got]; [by apply elem_of_nil in Hin|].
    simpl in Hin. apply elem_of_app in Hin as [Hin|Hin].
    + unfold read_back_failure in Hin.
      destruct (decide (read_back_ok y.2 v)) as [|Hno];
        [by apply elem_of_nil in Hin|].
      apply list_elem_of_singleton in Hin as [= -> ->].
      split; [done|]. exists y, v. split; [by left|done].
    + destruct (IH got Hin) as (-> & x & v1 & Hx & -> & Hno).
      split; [done|]. exists x, v1. split; [by right|done].
Qed.

(** C1. Round-trip read-back: [verifyConfigsInStore] returns normally
    having made one [Get(mockGvk, f.Name, f.Namespace)] call per fixture
    [f], in some order; for every fixture, either the result is a resource
    that [Compare]s equal to it, or the failure [wanted f, got result] is
    reported; and nothing else is reported. *)
Theorem read_back_verification (r : model.ConfigStore St) (t : T)
    (elts : gmap Z Config.t) (w : World St) :
  ∃ ord got w',
    ord ≡ₚ map_to_list elts ∧ length got = length ord ∧
    Runs r (mock.verifyConfigsInStore schemas rangeOrder r t elts) w tt
         (read_back_calls schemas ord got) (read_back_failures t ord got) w' ∧
    (∀ i f, elts !! i = Some f →
       ∃ v1, read_back_call schemas f v1 ∈ read_back_calls schemas ord got
             ∧ (read_back_ok f v1
                ∨ (t, Wanted f v1) ∈ read_back_failures t ord got)) ∧
    (∀ t' msg, (t', msg) ∈ read_back_failures t ord got →
       t' = t ∧ ∃ i f v1, elts !! i = Some f ∧ msg = Wanted f v1
                          ∧ ¬ read_back_ok f v1).
Proof.
  destruct (verifyConfigsInStore_runs r schemas rangeOrder t elts w)
    as (k & got & w' & Hlen & Hrun).
  exists (rangeOrder k elts), got, w'.
  split; [apply rangeOrder_perm|]. split; [done|]. split; [done|]. split.
  - intros i f Hf.
    apply (read_back_covers t (rangeOrder k elts) got (i, f)); [|done].
    rewrite rangeOrder_perm. by apply elem_of_map_to_list.
  - intros t' msg Hin.
    apply read_back_failures_sound in Hin as (-> & [i f] & v1 & Hx & -> & Hno).
    split; [done|]. exists i, f, v1. split; [|done].
    apply elem_of_map_to_list. by rewrite <- (rangeOrder_perm k).
Qed.

Lemma Make_not_negative_name namespace i :
  Config.Name (mock.Make schemas namespace i) ≠ "invalid"
  ∧ Config.Name (mock.Make schemas namespace i) ≠ "missing".
Proof. split; rewrite Make_Name; discriminate. Qed.

(** C3. Rejection property: [verifyErrorsOnInvalidOperations] calls
    [Create] and then [Update] on the zero-value resource, on the resource
    named [invalid] and on the resource named [missing] (both of the mock
    kind, neither the name of a fixture, each carrying a revision borrowed
    from the fixtures), then makes the two calls of [verifyMissingElements];
    it reports one failure for each of the six calls that returned no
    error, and returns normally. *)
Theorem rejection_property (r : model.ConfigStore St) (t : T)
    (elts : gmap Z Config.t) (w : World St) :
  ∃ rev1 rev2 res w',
    Runs r (mock.verifyErrorsOnInvalidOperations schemas rangeOrder r t elts)
         w tt (negative_calls schemas rev1 rev2 res) (negative_failures t res)
         w' ∧
    borrowed elts rev1 ∧ borrowed elts rev2 ∧
    negative_calls schemas rev1 rev2 res
    = [EvCreate Config.zero (on_zero res).1;
       EvUpdate Config.zero (on_zero res).2;
       EvCreate (mock.invalid_config schemas rev1) (on_invalid res).1;
       EvUpdate (mock.invalid_config schemas rev1) (on_invalid res).2;
       EvCreate (mock.missing_config schemas rev2) (on_missing res).1;
       EvUpdate (mock.missing_config schemas rev2) (on_missing res).2;
       EvList mockGvk' "" (listed_unscoped res);
       EvGet mockGvk' "missing" "" (got_missing res)] ∧
    negative_failures t res
    = unless_error t "expected error posting invalid object" (on_zero res).1
      ++ unless_error t "expected error updating invalid object"
                      (on_zero res).2
      ++ unless_error t "expected error posting invalid object"
                      (on_invalid res).1
      ++ unless_error t "expected error updating invalid object"
                      (on_invalid res).2
      ++ unless_error t "expected error posting invalid object"
                      (on_missing res).1
      ++ unless_error t "expected error updating invalid object"
                      (on_missing res).2
      ++ missing_failures t (listed_unscoped res) (got_missing res) ∧
    (Meta.GroupVersionKind (Config.Meta (mock.invalid_config schemas rev1))
     = mockGvk'
     ∧ Config.Name (mock.invalid_config schemas rev1) = "invalid"
     ∧ Config.ResourceVersion (mock.invalid_config schemas rev1) = rev1) ∧
    (Meta.GroupVersionKind (Config.Meta (mock.missing_config schemas rev2))
     = mockGvk'
     ∧ Config.Name (mock.missing_config schemas rev2) = "missing"
     ∧ Config.ResourceVersion (mock.missing_config schemas rev2) = rev2) ∧
    (∀ namespace i,
       Config.Name (mock.Make schemas namespace i) ≠ "invalid"
       ∧ Config.Name (mock.Make schemas namespace i) ≠ "missing").
Proof.
  destruct (verifyErrorsOnInvalidOperations_runs r schemas rangeOrder t elts w)
    as (k1 & k2 & res & w' & Hrun).
  exists (first_revision (rangeOrder k1 elts)),
         (first_revision (rangeOrder k2 elts)), res, w'.
  split; [done|].
  split; [by apply first_revision_borrowed|].
  split; [by apply first_revision_borrowed|].
  split; [done|]. split.
  { unfold negative_failures, assertError_failures.
    by rewrite <- !app_assoc. }
  split; [done|]. split; [done|]. apply Make_not_negative_name.
Qed.

Lemma create_calls_covers (oc : list (Z * Config.t)) res x :
  x ∈ oc → length res = length oc →
  ∃ b, EvCreate x.2 b ∈ create_calls oc res.
Proof.
  unfold create_calls. intros Hx. revert res.
  induction oc as [|y oc IH]; intros res Hlen.
  - by apply elem_of_nil in Hx.
  - destruct res as [|b res]; [done|]. injection Hlen as Hlen.
    apply elem_of_cons in Hx as [->|Hx].
    + exists b. by left.
    + destruct (IH Hx res Hlen) as (b' & Hin). exists b'. by right.
Qed.

Lemma Forall_zip_with_intro {A B C} (P : C → Prop) (g : A → B → C)
    (l : list A) (k : list B) :
  (∀ x y, P (g x y)) → Forall P (zip_with g l k).
Proof.
  intros Hg. revert k.
  induction l as [|x l IH]; intros [|y k]; simpl; constructor; auto.
Qed.

(** C5. Deletion completeness: [deleteConfigsFromStore] calls [Delete] once
    for each index [0 .. n-1], in this order, on the mock kind, the name
    [Make(namespace, i).Name] (the names are pairwise distinct) and
    [namespace], with no precondition; it reports every error a [Delete]
    returned; it then calls [List(mockGvk, namespace)] and reports a
    failure exactly when the result is not empty; and it returns
    normally. *)
Theorem deletion_completeness (r : model.ConfigStore St) (t : T)
    (namespace : string) (n : Z) (w : World St) :
  ∃ errs l w',
    length errs = length (seqZ 0 n) ∧
    Runs r (mock.deleteConfigsFromStore schemas r t namespace n) w tt
         (delete_calls schemas namespace n errs l) (delete_failures t errs l)
         w' ∧
    delete_calls schemas namespace n errs l
    = zip_with (λ i err,
        EvDelete mockGvk' (Config.Name (mock.Make schemas namespace i))
                 namespace None err) (seqZ 0 n) errs
      ++ [EvList mockGvk' namespace l] ∧
    NoDup ((λ i, Config.Name (mock.Make schemas namespace i)) <$> seqZ 0 n) ∧
    delete_failures t errs l
    = concat (when_error t <$> errs)
      ++ (if l is [] then [] else [(t, WantedZero (length l) l)]).
Proof.
  destruct (deleteConfigsFromStore_runs r schemas t namespace n w)
    as (errs & l & w' & Hlen & Hrun).
  exists errs, l, w'. split; [done|]. split; [done|]. split; [done|].
  split; [|done].
  apply NoDup_fmap_2; [|apply NoDup_seqZ].
  intros i j. apply Make_Name_inj.
Qed.

(** The two outcomes of [CheckMapInvariant]: without the mock kind in the
    registry, the run ends at once; with it, every step is taken. *)
Lemma CheckMapInvariant_outcome (r : model.ConfigStore St) (t : T)
    (namespace : string) (n : Z) (w : World St) :
  let elts := mock.createConfigs schemas namespace n in
  let '(s, s1) := model.Schemas r (store w) in
  match collection.FindByGroupVersionKind s mockGvk' with
  | None =>
      mock.CheckMapInvariant schemas rangeOrder r t namespace n w
      = Aborted {| store := s1;
                   failures := failures w
                               ++ [(t, Text "expected config mock types")];
                   ranges := ranges w;
                   calls := calls w ++ [EvSchemas s] |}
  | Some _ =>
      ∃ oc ov res w',
        oc ≡ₚ map_to_list elts ∧ ov ≡ₚ map_to_list elts ∧
        length (creations res) = length oc ∧
        length (read_backs res) = length ov ∧
        length (deletions res) = length (seqZ 0 n) ∧
        Runs r (mock.CheckMapInvariant schemas rangeOrder r t namespace n)
             w tt (crud_calls schemas s namespace n oc ov "" "" res)
             (crud_failures t ov res) w'
  end.
Proof.
  intros elts. destruct (model.Schemas r (store w)) as [s s1] eqn:Hs.
  destruct (collection.FindByGroupVersionKind s mockGvk') as [sch|] eqn:Hfind.
  - destruct (CheckMapInvariant_runs r schemas rangeOrder t namespace n w s s1
                Hs) as (kc & kv & k1 & k2 & res & w' & L1 & L2 & L3 & Hrun).
    { by rewrite Hfind. }
    exists (rangeOrder kc elts), (rangeOrder kv elts), res, w'.
    split; [apply rangeOrder_perm|]. split; [apply rangeOrder_perm|].
    split; [done|]. split; [done|]. split; [done|].
    rewrite (first_revision_fixtures namespace n (rangeOrder k1 _)) in Hrun
      by apply rangeOrder_perm.
    rewrite (first_revision_fixtures namespace n (rangeOrder k2 _)) in Hrun
      by apply rangeOrder_perm.
    exact Hrun.
  - unfold mock.CheckMapInvariant, mbind, M_bind.
    by rewrite (verifyConfigTypes_missing r schemas t w s s1 Hs Hfind).
Qed.

(** C9. Failure severity discipline: when the registry of the store does
    not resolve the mock kind, [CheckMapInvariant] reports one failure and
    ends at once, having made no store call after [Schemas]; when it does,
    the run returns normally having taken every step: one [Create] per
    fixture whatever the earlier ones returned (so each of the [n] fixtures
    is submitted), one read-back per fixture, the negative cases, the
    deletions and the final [List], and it reports the failures of all the
    steps, in order. *)
Theorem failure_severity (r : model.ConfigStore St) (t : T)
    (namespace : string) (n : Z) (w : World St) :
  let elts := mock.createConfigs schemas namespace n in
  let '(s, s1) := model.Schemas r (store w) in
  match collection.FindByGroupVersionKind s mockGvk' with
  | None =>
      mock.CheckMapInvariant schemas rangeOrder r t namespace n w
      = Aborted {| store := s1;
                   failures := failures w
                               ++ [(t, Text "expected config mock types")];
                   ranges := ranges w;
                   calls := calls w ++ [EvSchemas s] |}
  | Some _ =>
      ∃ oc ov res w',
        oc ≡ₚ map_to_list elts ∧ ov ≡ₚ map_to_list elts ∧
        length (creations res) = length oc ∧
        length (read_backs res) = length ov ∧
        length (deletions res) = length (seqZ 0 n) ∧
        Runs r (mock.CheckMapInvariant schemas rangeOrder r t namespace n)
             w tt
             (EvSchemas s
              :: create_calls oc (creations res)
              ++ read_back_calls schemas ov (read_backs res)
              ++ negative_calls schemas "" "" (negatives res)
              ++ delete_calls schemas namespace n (deletions res)
                              (remaining res))
             (create_failures t (creations res)
              ++ read_back_failures t ov (read_backs res)
              ++ negative_failures t (negatives res)
              ++ delete_failures t (deletions res) (remaining res)) w' ∧
        (∀ i, 0 ≤ i < n →
           ∃ b, EvCreate (mock.Make schemas namespace i) b
                ∈ create_calls oc (creations res))
  end.
Proof.
  pose proof (CheckMapInvariant_outcome r t namespace n w) as Hout.
  simpl in *.
  destruct (model.Schemas r (store w)) as [s s1].
  destruct (collection.FindByGroupVersionKind s mockGvk'); [|done].
  destruct Hout as (oc & ov & res & w' & P1 & P2 & L1 & L2 & L3 & Hrun).
  exists oc, ov, res, w'. repeat (split; [done|]).
  intros i Hi.
  apply (create_calls_covers oc (creations res)
           (i, mock.Make schemas namespace i)); [|done].
  rewrite P1. apply elem_of_map_to_list. by apply createConfigs_lookup_Some.
Qed.

(** C10. No fixture carries a revision: every fixture of
    [createConfigs namespace n] has the empty [ResourceVersion];
    [getFirstRevision] returns the empty string on them; and in a whole
    run, which reads back and compares the fixtures as they were made (what
    [Create] returned is not kept), the invalid and the missing resource
    are submitted with the empty revision. *)
Theorem fixtures_carry_no_revision (r : model.ConfigStore St) (t : T)
    (namespace : string) (n : Z) (w : World St) :
  let elts := mock.createConfigs schemas namespace n in
  (∀ i f, elts !! i = Some f → Config.ResourceVersion f = "") ∧
  (∃ w', Runs r (mock.getFirstRevision rangeOrder elts) w "" [] [] w') ∧
  (∃ res w',
     Runs r (mock.verifyErrorsOnInvalidOperations schemas rangeOrder r t elts)
          w tt (negative_calls schemas "" "" res) (negative_failures t res)
          w') ∧
  Config.ResourceVersion (mock.invalid_config schemas "") = "" ∧
  Config.ResourceVersion (mock.missing_config schemas "") = "" ∧
  let '(s, s1) := model.Schemas r (store w) in
  if collection.FindByGroupVersionKind s mockGvk' is Some _ then
    ∃ oc ov res w',
      oc ≡ₚ map_to_list elts ∧ ov ≡ₚ map_to_list elts ∧
      length (creations res) = length oc ∧
      length (read_backs res) = length ov ∧
      Runs r (mock.CheckMapInvariant schemas rangeOrder r t namespace n) w tt
           (EvSchemas s
            :: create_calls oc (creations res)
            ++ read_back_calls schemas ov (read_backs res)
            ++ negative_calls schemas "" "" (negatives res)
            ++ delete_calls schemas namespace n (deletions res)
                            (remaining res))
           (crud_failures t ov res) w'
  else aborted (mock.CheckMapInvariant schemas rangeOrder r t namespace n w)
       = true.
Proof.
  intros elts. split; [apply createConfigs_ResourceVersion|]. split.
  { destruct (getFirstRevision_runs r rangeOrder elts w) as (k & w' & Hrun).
    exists w'.
    by rewrite (first_revision_fixtures namespace n (rangeOrder k _)) in Hrun
      by apply rangeOrder_perm. }
  split.
  { destruct (verifyErrorsOnInvalidOperations_runs r schemas rangeOrder t elts
                w) as (k1 & k2 & res & w' & Hrun).
    exists res, w'.
    rewrite (first_revision_fixtures namespace n (rangeOrder k1 _)) in Hrun
      by apply rangeOrder_perm.
    by rewrite (first_revision_fixtures namespace n (rangeOrder k2 _)) in Hrun
      by apply rangeOrder_perm. }
  split; [done|]. split; [done|].
  pose proof (CheckMapInvariant_outcome r t namespace n w) as Hout.
  simpl in Hout. fold elts in Hout.
  destruct (model.Schemas r (store w)) as [s s1].
  destruct (collection.FindByGroupVersionKind s mockGvk').
  - destruct Hout as (oc & ov & res & w' & P1 & P2 & L1 & L2 & _ & Hrun).
    by exists oc, ov, res, w'.
  - by rewrite Hout.
Qed.

(** C4 (as amended). During negative-case verification the harness calls
    [List] of the mock kind with the empty namespace and reports a failure
    when the result is not empty, then calls [Get] of the mock kind for the
    name [missing] with the empty namespace (not the tested one) and
    reports a failure when the result is not null; in a whole run these two
    calls come after the [Create] of each of the [n] fixtures and before
    any [Delete]. *)
Theorem missing_elements_check (r : model.ConfigStore St) (t : T)
    (namespace : string) (n : Z) (w : World St) :
  (∃ l cfg w',
     Runs r (mock.verifyMissingElements schemas r t) w tt
          [EvList mockGvk' "" l; EvGet mockGvk' "missing" "" cfg]
          ((if l is [] then []
            else [(t, Text "unexpected objects for missing type")])
           ++ (if cfg is None then []
               else [(t, Text "unexpected configuration object found")]))
          w') ∧
  let '(s, s1) := model.Schemas r (store w) in
  if collection.FindByGroupVersionKind s mockGvk' is Some _ then
    ∃ pre post fs1 fs2 l cfg w',
      Runs r (mock.CheckMapInvariant schemas rangeOrder r t namespace n) w tt
           (pre ++ [EvList mockGvk' "" l; EvGet mockGvk' "missing" "" cfg]
            ++ post)
           (fs1 ++ missing_failures t l cfg ++ fs2) w' ∧
      (∀ i, 0 ≤ i < n →
         ∃ res, EvCreate (mock.Make schemas namespace i) res ∈ pre) ∧
      Forall (λ ev, is_Delete ev = false) pre
  else aborted (mock.CheckMapInvariant schemas rangeOrder r t namespace n w)
       = true.
Proof.
  split; [apply verifyMissingElements_runs|].
  pose proof (CheckMapInvariant_outcome r t namespace n w) as Hout.
  simpl in Hout.
  destruct (model.Schemas r (store w)) as [s s1].
  destruct (collection.FindByGroupVersionKind s mockGvk');
    [|by rewrite Hout].
  destruct Hout as (oc & ov & res & w' & P1 & P2 & L1 & L2 & _ & Hrun).
  set (neg := negatives res) in *.
  exists (EvSchemas s
          :: create_calls oc (creations res)
          ++ read_back_calls schemas ov (read_backs res)
          ++ assertError_calls Config.zero (on_zero neg)
          ++ assertError_calls (mock.invalid_config schemas "")
                               (on_invalid neg)
          ++ assertError_calls (mock.missing_config schemas "")
                               (on_missing neg)),
         (delete_calls schemas namespace n (deletions res) (remaining res)),
         (create_failures t (creations res)
          ++ read_back_failures t ov (read_backs res)
          ++ assertError_failures t (on_zero neg)
          ++ assertError_failures t (on_invalid neg)
          ++ assertError_failures t (on_missing neg)),
         (delete_failures t (deletions res) (remaining res)),
         (listed_unscoped neg), (got_missing neg), w'.
  split; [|split].
  - eapply Runs_conv; [exact Hrun|..].
    + unfold crud_calls, negative_calls, missing_calls. fold neg.
      rewrite <- ?app_comm_cons. by rewrite <- !app_assoc.
    + unfold crud_failures, negative_failures. fold neg.
      by rewrite <- !app_assoc.
  - intros i Hi.
    destruct (create_calls_covers oc (creations res)
                (i, mock.Make schemas namespace i)) as (b & Hin); [|done|].
    { rewrite P1. apply elem_of_map_to_list.
      by apply createConfigs_lookup_Some. }
    exists b. right. apply elem_of_app. by left.
  - constructor; [done|]. repeat apply Forall_app_2.
    + by apply Forall_zip_with_intro.
    + by apply Forall_zip_with_intro.
    + by repeat constructor.
    + by repeat constructor.
    + by repeat constructor.
Qed.

(** C7 (as amended). Typed ingestion: [CheckIstioConfigTypes] runs five
    sub-tests, [VirtualService], [DestinationRule], [ServiceEntry],
    [Gateway] and [AuthorizationPolicy], each to its end whatever the
    others reported.  Each creates the resource named [example] of its
    kind, whose namespace is the namespace argument when the kind is not
    cluster-scoped and is left empty when it is; then it calls
    [List(kind, namespace)] and reports a failure when the result is
    empty, and calls [Get(kind, "example", namespace)], with the namespace
    argument whatever the scope of the kind, and reports a failure when
    the result is null.  Failures are reported to the sub-test. *)
Theorem typed_ingestion (r : model.ConfigStore St) (namespace : string)
    (t : T) (w : World St) :
  ∃ res w',
    length res = 5%nat ∧
    Runs r (mock.CheckIstioConfigTypes schemas r namespace t) w tt
         (concat (zip_with (case_calls namespace) (mock.cases schemas) res))
         (concat (zip_with (case_failures t) (mock.cases schemas) res)) w' ∧
    mock.name <$> mock.cases schemas
    = ["VirtualService"; "DestinationRule"; "ServiceEntry"; "Gateway";
       "AuthorizationPolicy"] ∧
    mock.schema <$> mock.cases schemas
    = [collections.VirtualService schemas; collections.DestinationRule schemas;
       collections.ServiceEntry schemas; collections.Gateway schemas;
       collections.AuthorizationPolicy schemas] ∧
    mock.spec <$> mock.cases schemas
    = [SpecVirtualService mock.ExampleVirtualService;
       SpecDestinationRule mock.ExampleDestinationRule;
       SpecServiceEntry mock.ExampleServiceEntry;
       SpecGateway mock.ExampleGateway;
       SpecAuthorizationPolicy mock.ExampleAuthorizationPolicy] ∧
    Forall (λ c, mock.configName c = "example") (mock.cases schemas) ∧
    (∀ c res,
       case_calls namespace c res
       = [EvCreate
            {| Config.Meta :=
                 {| Meta.GroupVersionKind :=
                      resource.GroupVersionKind (mock.schema c);
                    Meta.Name := mock.configName c;
                    Meta.Namespace :=
                      if resource.IsClusterScoped (mock.schema c) then ""
                      else namespace;
                    Meta.Labels := None; Meta.Annotations := None;
                    Meta.ResourceVersion := "";
                    Meta.CreationTimestamp := time.zero |};
               Config.Spec := mock.spec c |} (created res);
          EvList (resource.GroupVersionKind (mock.schema c)) namespace
                 (listed res);
          EvGet (resource.GroupVersionKind (mock.schema c))
                (mock.configName c) namespace (stored res)]) ∧
    (∀ c res,
       case_failures t c res
       = when_error (t +:+ "/" +:+ mock.name c) (created res).2
         ++ (if listed res is []
             then [(t +:+ "/" +:+ mock.name c,
                    Text "expected non-zero number of configs")]
             else [])
         ++ (if stored res is None
             then [(t +:+ "/" +:+ mock.name c,
                    Text "expected to find stored config")]
             else [])).
Proof.
  destruct (CheckIstioConfigTypes_runs r schemas namespace t w)
    as (res & w' & Hlen & Hrun).
  exists res, w'. split; [done|]. split; [done|]. split; [done|].
  split; [done|]. split; [done|]. split; [by repeat constructor|]. done.
Qed.
End Claims.

(** ** The harness on the in-memory store *)
Section Examples.
Import config2 testing.

#[local] Abbreviation run_crud namespace n :=
  (mock.CheckMapInvariant example.schemas example.order memory.store
     "TestStore" namespace n (example.world example.schemas)).

Lemma not_called_Get typ name namespace (l : list Event) :
  forallb (λ ev, negb (is_Get typ name namespace ev)) l = true →
  ∀ res, EvGet typ name namespace res ∉ l.
Proof.
  intros Hall res Hin. apply list_elem_of_In in Hin.
  rewrite forallb_forall in Hall. specialize (Hall _ Hin). simpl in Hall.
  by rewrite !bool_decide_eq_true_2 in Hall.
Qed.

(** A run on the empty in-memory store returns normally, reports nothing
    and leaves the store empty. *)
Example CheckMapInvariant_passes :
  aborted (run_crud "ns1" 5) = false
  ∧ failures (world_of (run_crud "ns1" 5)) = []
  ∧ memory.data (store (world_of (run_crud "ns1" 5))) = []
  ∧ length (calls (world_of (run_crud "ns1" 5))) = 25%nat.
Proof. vm_compute. done. Qed.

(** A run on a store whose registry is empty ends at the first step. *)
Example CheckMapInvariant_unregistered :
  mock.CheckMapInvariant example.schemas example.order memory.store
    "TestStore" "ns1" 5
    {| store := memory.empty []; failures := []; ranges := 0; calls := [] |}
  = Aborted {| store := memory.empty [];
               failures := [("TestStore", Text "expected config mock types")];
               ranges := 0; calls := [EvSchemas []] |}.
Proof. reflexivity. Qed.

Lemma read_back_verification_witness :
  (∀ k elts, example.order k elts ≡ₚ map_to_list elts) ∧
  ∃ ord got w',
    ord ≡ₚ map_to_list (mock.createConfigs example.schemas "ns1" 2) ∧
    length got = length ord ∧
    Runs memory.store
      (mock.verifyConfigsInStore example.schemas example.order memory.store
         "TestStore" (mock.createConfigs example.schemas "ns1" 2))
      (example.populated "ns1" 2) tt
      (read_back_calls example.schemas ord got)
      (read_back_failures "TestStore" ord got) w'.
Proof.
  split; [intros; reflexivity|].
  destruct (read_back_verification example.schemas example.order
              ltac:(intros; reflexivity) memory.store "TestStore"
              (mock.createConfigs example.schemas "ns1" 2)
              (example.populated "ns1" 2))
    as (ord & got & w' & Hperm & Hlen & Hrun & _).
  by exists ord, got, w'.
Defined.

Lemma rejection_property_witness :
  (∀ k elts, example.order k elts ≡ₚ map_to_list elts) ∧
  ∃ rev1 rev2 res w',
    Runs memory.store
      (mock.verifyErrorsOnInvalidOperations example.schemas example.order
         memory.store "TestStore" (mock.createConfigs example.schemas "ns1" 2))
      (example.populated "ns1" 2) tt
      (negative_calls example.schemas rev1 rev2 res)
      (negative_failures "TestStore" res) w' ∧
    borrowed (mock.createConfigs example.schemas "ns1" 2) rev1 ∧
    borrowed (mock.createConfigs example.schemas "ns1" 2) rev2.
Proof.
  split; [intros; reflexivity|].
  destruct (rejection_property example.schemas example.order
              ltac:(intros; reflexivity) memory.store "TestStore"
              (mock.createConfigs example.schemas "ns1" 2)
              (example.populated "ns1" 2))
    as (rev1 & rev2 & res & w' & Hrun & Hb1 & Hb2 & _).
  by exists rev1, rev2, res, w'.
Defined.

Lemma failure_severity_witness :
  (∀ k elts, example.order k elts ≡ₚ map_to_list elts) ∧
  ∃ oc ov res w',
    oc ≡ₚ map_to_list (mock.createConfigs example.schemas "ns1" 2) ∧
    ov ≡ₚ map_to_list (mock.createConfigs example.schemas "ns1" 2) ∧
    length (creations res) = length oc ∧
    length (read_backs res) = length ov ∧
    length (deletions res) = length (seqZ 0 2) ∧
    Runs memory.store (mock.CheckMapInvariant example.schemas example.order
                         memory.store "TestStore" "ns1" 2)
         (example.world example.schemas) tt
         (EvSchemas (example.registry example.schemas)
          :: create_calls oc (creations res)
          ++ read_back_calls example.schemas ov (read_backs res)
          ++ negative_calls example.schemas "" "" (negatives res)
          ++ delete_calls example.schemas "ns1" 2 (deletions res)
                          (remaining res))
         (create_failures "TestStore" (creations res)
          ++ read_back_failures "TestStore" ov (read_backs res)
          ++ negative_failures "TestStore" (negatives res)
          ++ delete_failures "TestStore" (deletions res) (remaining res)) w' ∧
    (∀ i, 0 ≤ i < 2 →
       ∃ b, EvCreate (mock.Make example.schemas "ns1" i) b
            ∈ create_calls oc (creations res)).
Proof.
  split; [intros; reflexivity|].
  exact (failure_severity example.schemas example.order
           ltac:(intros; reflexivity) memory.store "TestStore" "ns1" 2
           (example.world example.schemas)).
Defined.

Lemma fixtures_carry_no_revision_witness :
  (∀ k elts, example.order k elts ≡ₚ map_to_list elts) ∧
  (∀ i f, mock.createConfigs example.schemas "ns1" 2 !! i = Some f →
          Config.ResourceVersion f = "") ∧
  ∃ w', Runs memory.store
          (mock.getFirstRevision example.order
             (mock.createConfigs example.schemas "ns1" 2))
          (example.populated "ns1" 2) "" [] [] w'.
Proof.
  split; [intros; reflexivity|].
  destruct (fixtures_carry_no_revision example.schemas example.order
              ltac:(intros; reflexivity) memory.store "TestStore" "ns1" 2
              (example.populated "ns1" 2)) as (Hrev & Hfirst & _).
  by split.
Defined.

Lemma missing_elements_check_witness :
  (∀ k elts, example.order k elts ≡ₚ map_to_list elts) ∧
  ∃ l cfg w',
    Runs memory.store
      (mock.verifyMissingElements example.schemas memory.store "TestStore")
      (example.populated "ns1" 2) tt
      [EvList (mock.mockGvk example.schemas) "" l;
       EvGet (mock.mockGvk example.schemas) "missing" "" cfg]
      ((if l is [] then []
        else [("TestStore", Text "unexpected objects for missing type")])
       ++ (if cfg is None then []
           else [("TestStore",
                  Text "unexpected configuration object found")])) w'.
Proof.
  split; [intros; reflexivity|].
  exact (proj1 (missing_elements_check example.schemas example.order
                  ltac:(intros; reflexivity) memory.store "TestStore" "ns1" 2
                  (example.populated "ns1" 2))).
Defined.

(** C4, counterexample.  With the tested namespace [ns1] the harness makes
    no [Get] call for the name [missing] in [ns1]: its call has the empty
    namespace.  So, on a store that holds a resource named [missing] in
    [ns1], negative-case verification reports nothing although
    [Get(mockGvk, "missing", "ns1")] is not null. *)
Lemma missing_lookup_counterexample :
  (∀ res, EvGet (mock.mockGvk example.schemas) "missing" "ns1" res
          ∉ calls (world_of (run_crud "ns1" 1)))
  ∧ calls (world_of (run_crud "ns1" 1)) !! 10%nat
    = Some (EvGet (mock.mockGvk example.schemas) "missing" "" None)
  ∧ (let w' := world_of
       (mock.verifyErrorsOnInvalidOperations example.schemas example.order
          memory.store "TestStore" ∅ (example.with_missing "ns1")) in
     failures w' = []
     ∧ is_Some (memory.lookup (mock.mockGvk example.schemas) "missing" "ns1"
                  (store w'))).
Proof.
  split; [|split; [|split]].
  - apply not_called_Get. vm_compute. reflexivity.
  - vm_compute. reflexivity.
  - vm_compute. reflexivity.
  - vm_compute. eexists. reflexivity.
Qed.

#[local] Abbreviation run_typed :=
  (mock.CheckIstioConfigTypes example.schemas_cluster memory.store "ns1"
     "TestStore" (example.world example.schemas_cluster)).

(** C7, counterexample.  With a cluster-scoped [VirtualService] and the
    namespace argument [ns1], the harness makes no
    [Get(kind, "example", "")] call: it asks for the resource in [ns1],
    and reports that it did not find it although it is stored under the
    empty namespace. *)
Lemma typed_ingestion_counterexample :
  resource.IsClusterScoped (collections.VirtualService example.schemas_cluster)
  = true
  ∧ (∀ res, EvGet (example.kind "VirtualService") "example" "" res
            ∉ calls (world_of run_typed))
  ∧ calls (world_of run_typed) !! 2%nat
    = Some (EvGet (example.kind "VirtualService") "example" "ns1" None)
  ∧ failures (world_of run_typed) !! 1%nat
    = Some ("TestStore/VirtualService", Text "expected to find stored config")
  ∧ is_Some (memory.lookup (example.kind "VirtualService") "example" ""
               (store (world_of run_typed))).
Proof.
  split; [done|]. split; [|split; [|split]].
  - apply not_called_Get. vm_compute. reflexivity.
  - vm_compute. reflexivity.
  - vm_compute. reflexivity.
  - vm_compute. eexists. reflexivity.
Qed.

(** C6, the run that shows the defect.  On the in-memory store, read-back
    of the one fixture of [ns1] observes the revision ["1"] the store gave
    it at creation, and [verifyConfigsInStore] drops it on return; the
    invalid and the missing resource are then submitted with the empty
    revision of the fixture as [Make] built it, not with the observed
    one. *)
Lemma borrowed_revision_divergence :
  let elts := mock.createConfigs example.schemas "ns1" 1 in
  (∃ revs w',
     mock.verifyConfigsInStore_revs example.schemas example.order
       memory.store "TestStore" elts (example.populated "ns1" 1)
     = Done revs w'
     ∧ revs !! 0 = Some "1"
     ∧ mock.verifyConfigsInStore example.schemas example.order memory.store
         "TestStore" elts (example.populated "ns1" 1) = Done tt w')
  ∧ calls (world_of (run_crud "ns1" 1)) !! 1%nat
    = Some (EvCreate (mock.Make example.schemas "ns1" 0)
                     (memory.stamp 1 (mock.Make example.schemas "ns1" 0),
                      None))
  ∧ Config.ResourceVersion
      (memory.stamp 1 (mock.Make example.schemas "ns1" 0)) = "1"
  ∧ calls (world_of (run_crud "ns1" 1)) !! 5%nat
    = Some (EvCreate (mock.invalid_config example.schemas "")
                     (Config.zero, Some (errorString "namespace required")))
  ∧ calls (world_of (run_crud "ns1" 1)) !! 8%nat
    = Some (EvUpdate (mock.missing_config example.schemas "")
                     (Config.zero, Some (errorString "item not found")))
  ∧ Config.ResourceVersion (mock.invalid_config example.schemas "") ≠ "1".
Proof.
  intros elts. split; [|split; [|split; [|split; [|split]]]].
  - eexists _, _. split; [|split].
    + vm_compute. reflexivity.
    + vm_compute. reflexivity.
    + vm_compute. reflexivity.
  - vm_compute. reflexivity.
  - vm_compute. reflexivity.
  - vm_compute. reflexivity.
  - vm_compute. reflexivity.
  - discriminate.
Qed.
End Examples.

(** * Further properties of the harness *)

(** ** Equality and fixtures *)
Section MoreFixtures.
Import config2 testing.
Variable schemas : collections.t.

Lemma Compare_true_iff (a b : Config.t) :
  mock.Compare a b = true ↔
  Config.set_CreationTimestamp time.zero (Config.set_ResourceVersion "" a)
  = Config.set_CreationTimestamp time.zero (Config.set_ResourceVersion "" b).
Proof. unfold mock.Compare. apply DeepEqual_eq. Qed.

(** X1. [Compare] is an equivalence relation on resources. *)
Theorem Compare_equivalence :
  Equivalence (λ a b : Config.t, mock.Compare a b = true).
Proof.
  split.
  - intros a. by apply Compare_true_iff.
  - intros a b Hab. apply Compare_true_iff. symmetry.
    by apply Compare_true_iff.
  - intros a b c Hab Hbc. apply Compare_true_iff.
    etrans; by apply Compare_true_iff.
Qed.

(** X2. [Compare] does not look at the revision or at the creation time:
    changing either on either side does not change its result, and a
    resource compares equal to any restamped copy of itself. *)
Theorem Compare_ignores_stamps (a b : Config.t) (v : string) (ts : time.Time) :
  mock.Compare (Config.set_ResourceVersion v a) b = mock.Compare a b
  ∧ mock.Compare (Config.set_CreationTimestamp ts a) b = mock.Compare a b
  ∧ mock.Compare a (Config.set_ResourceVersion v b) = mock.Compare a b
  ∧ mock.Compare a (Config.set_CreationTimestamp ts b) = mock.Compare a b
  ∧ mock.Compare a
      (Config.set_ResourceVersion v (Config.set_CreationTimestamp ts a))
    = true.
Proof.
  repeat split; try by destruct a as [[]], b as [[]].
  apply Compare_true_iff. by destruct a as [[]].
Qed.

(** X3. Two fixtures compare equal only when they were made for the same
    namespace and the same index. *)
Theorem Compare_Make_iff (namespace namespace' : string) (i j : Z) :
  mock.Compare (mock.Make schemas namespace i)
               (mock.Make schemas namespace' j) = true
  ↔ namespace = namespace' ∧ i = j.
Proof.
  rewrite Compare_true_iff. split.
  - intros Heq. split.
    + exact (f_equal Config.Namespace Heq).
    + apply (Make_Name_inj schemas namespace namespace').
      exact (f_equal Config.Name Heq).
  - by intros [-> ->].
Qed.

(** X4. The two negative-case resources and the zero-value resource never
    compare equal to a fixture, nor to one another, whatever revisions they
    carry. *)
Theorem Compare_negative_resources (namespace : string) (i : Z)
    (rev rev' : string) :
  mock.Compare (mock.Make schemas namespace i)
               (mock.invalid_config schemas rev) = false
  ∧ mock.Compare (mock.Make schemas namespace i)
                 (mock.missing_config schemas rev) = false
  ∧ mock.Compare (mock.Make schemas namespace i) Config.zero = false
  ∧ mock.Compare (mock.invalid_config schemas rev)
                 (mock.missing_config schemas rev') = false
  ∧ mock.Compare Config.zero (mock.invalid_config schemas rev) = false
  ∧ mock.Compare Config.zero (mock.missing_config schemas rev) = false.
Proof.
  repeat split; apply not_true_is_false; rewrite Compare_true_iff;
    intros Heq; discriminate (f_equal Config.Name Heq).
Qed.

(** X5. A map label set that is nil and one that is empty are not equal
    for [Compare] (nor are nil and empty annotations): a store that turns
    one into the other fails the read-back. *)
Theorem Compare_nil_or_empty (a b : Config.t) :
  (Meta.Labels (Config.Meta a) = None
   ∧ Meta.Labels (Config.Meta b) = Some ∅)
  ∨ (Meta.Annotations (Config.Meta a) = None
     ∧ Meta.Annotations (Config.Meta b) = Some ∅) →
  mock.Compare a b = false ∧ mock.Compare b a = false.
Proof.
  intros H. split; apply not_true_is_false; rewrite Compare_true_iff;
    intros Heq.
  - pose proof (f_equal (λ c, Meta.Labels (Config.Meta c)) Heq) as H1.
    pose proof (f_equal (λ c, Meta.Annotations (Config.Meta c)) Heq) as H2.
    simpl in *. destruct H as [[Ha Hb]|[Ha Hb]]; congruence.
  - pose proof (f_equal (λ c, Meta.Labels (Config.Meta c)) Heq) as H1.
    pose proof (f_equal (λ c, Meta.Annotations (Config.Meta c)) Heq) as H2.
    simpl in *. destruct H as [[Ha Hb]|[Ha Hb]]; congruence.
Qed.

Lemma createConfigs_to_list namespace n :
  map_to_list (mock.createConfigs schemas namespace n)
  ≡ₚ (λ i, (i, mock.Make schemas namespace i)) <$> seqZ 0 n.
Proof.
  apply NoDup_Permutation.
  - apply NoDup_map_to_list.
  - apply NoDup_fmap_2; [|apply NoDup_seqZ]. by intros i j [= ->].
  - intros [i f]. rewrite elem_of_map_to_list, createConfigs_lookup_Some,
      list_elem_of_fmap. split.
    + intros [Hi ->]. exists i. split; [done|]. apply elem_of_seqZ. lia.
    + intros (j & [= -> ->] & Hj). apply elem_of_seqZ in Hj. split; [lia|done].
Qed.

Lemma createConfigs_size_nat namespace n :
  size (mock.createConfigs schemas namespace n) = Z.to_nat n.
Proof.
  rewrite <- length_map_to_list, createConfigs_to_list, length_fmap.
  apply length_seqZ.
Qed.

Lemma createConfigs_empty_iff namespace n :
  mock.createConfigs schemas namespace n = ∅ ↔ n ≤ 0.
Proof. rewrite <- map_size_empty_iff, createConfigs_size_nat. lia. Qed.

(** X6. [createConfigs namespace n] holds exactly [n] fixtures, one per
    index of [0 .. n-1] (none when [n] is zero or negative), each in
    [namespace]. *)
Theorem createConfigs_size (namespace : string) (n : Z) :
  size (mock.createConfigs schemas namespace n) = Z.to_nat n
  ∧ (mock.createConfigs schemas namespace n = ∅ ↔ n ≤ 0)
  ∧ map_to_list (mock.createConfigs schemas namespace n)
    ≡ₚ (λ i, (i, mock.Make schemas namespace i)) <$> seqZ 0 n
  ∧ map_Forall (λ _ f, Config.Namespace f = namespace)
               (mock.createConfigs schemas namespace n).
Proof.
  split; [apply createConfigs_size_nat|].
  split; [apply createConfigs_empty_iff|].
  split; [apply createConfigs_to_list|].
  intros i f [_ ->]%createConfigs_lookup_Some. done.
Qed.
End MoreFixtures.

Section MoreFixturesExamples.
Import config2.

(** A fixture and the same fixture with its payload bound to its type
    description agree on the metadata and on the exported fields of the
    payload, and [Compare] tells them apart: this is how a fixture compares
    with the copy a store decodes from its serialized form. *)
Example Compare_bound_payload :
  let a := mock.Make example.schemas "ns1" 0 in
  Config.Meta (example.bound a) = Config.Meta a
  ∧ example.exported (example.bound a) = example.exported a
  ∧ mock.Compare a (example.bound a) = false
  ∧ mock.Compare (example.bound a) a = false.
Proof. vm_compute. done. Qed.

(** A payload with a nil slice and the same payload with an empty one are
    different for [Compare]. *)
Example Compare_nil_or_empty_Pairs :
  let a := mock.missing_config example.schemas "" in
  let b :=
    {| Config.Meta := Config.Meta a;
       Config.Spec :=
         SpecMockConfig {| config.MockConfig.internal := protoimpl.zero;
                           config.MockConfig.Key := "missing";
                           config.MockConfig.Pairs := Some [] |} |} in
  mock.Compare a b = false.
Proof. vm_compute. done. Qed.

Lemma Compare_nil_or_empty_witness :
  ((Meta.Labels (Config.Meta Config.zero) = None
    ∧ Meta.Labels (Config.Meta example.empty_labels) = Some ∅)
   ∨ (Meta.Annotations (Config.Meta Config.zero) = None
      ∧ Meta.Annotations (Config.Meta example.empty_labels) = Some ∅))
  ∧ mock.Compare Config.zero example.empty_labels = false
  ∧ mock.Compare example.empty_labels Config.zero = false.
Proof.
  split; [left; split; reflexivity|].
  apply (Compare_nil_or_empty Config.zero example.empty_labels).
  left. split; reflexivity.
Defined.
End MoreFixturesExamples.

(** ** What read-back records *)
Section MoreReadBack.
Import config2 testing.
Context {St : Type}.
Variable r : model.ConfigStore St.
Variable schemas : collections.t.
Variable rangeOrder : nat → gmap Z Config.t → list (Z * Config.t).
Hypothesis rangeOrder_perm : ∀ k elts, rangeOrder k elts ≡ₚ map_to_list elts.

(** A loop whose local variable is a function of what was observed. *)
Lemma Runs_foldM_acc {A B C} (f : C → A → M St C) (g : C → A → B → C)
    (ev : A → B → list Event) (fl : A → B → list (T * Message))
    (l : list A) :
  (∀ acc x w, ∃ b w', Runs r (f acc x) w (g acc x b) (ev x b) (fl x b) w') →
  ∀ acc w, ∃ bs w', length bs = length l ∧
    Runs r (foldM f acc l) w (foldl (λ acc xb, g acc xb.1 xb.2) acc (zip l bs))
         (concat (zip_with ev l bs)) (concat (zip_with fl l bs)) w'.
Proof.
  intros Hf. induction l as [|x l IH]; intros acc w.
  - exists [], w. split; [done|]. apply Runs_ret.
  - destruct (Hf acc x w) as (b & w1 & H1).
    destruct (IH (g acc x b) w1) as (bs & w2 & Hlen & H2).
    exists (b :: bs), w2. split; [simpl; congruence|].
    simpl. eapply Runs_bind; eauto.
Qed.

Lemma verifyConfigsInStore_revs_records t elts w :
  ∃ k got w',
    length got = length (rangeOrder k elts) ∧
    Runs r (mock.verifyConfigsInStore_revs schemas rangeOrder r t elts) w
      (recorded_revs (rangeOrder k elts) got)
      (read_back_calls schemas (rangeOrder k elts) got)
      (read_back_failures t (rangeOrder k elts) got) w'.
Proof.
  unfold mock.verifyConfigsInStore_revs.
  destruct (Runs_range r rangeOrder elts w) as (k & w1 & H1).
  edestruct (Runs_foldM_acc
    (λ (revs : gmap Z string) '(i, elt),
       v1 ← mock.r_Get r (mock.mockGvk schemas) (Config.Name elt)
              (Config.Namespace elt);
       match v1 with
       | Some v =>
           if negb (mock.Compare elt v)
           then mock.t_Error t (Wanted elt v1) ;; mret revs
           else mret (<[i := Config.ResourceVersion v]> revs)
       | None => mock.t_Error t (Wanted elt v1) ;; mret revs
       end)
    record_rev
    (λ (x : Z * Config.t) v1, [read_back_call schemas x.2 v1])
    (λ x v1, read_back_failure t x.2 v1) (rangeOrder k elts))
    as (got & w2 & Hlen & H2).
  { intros acc [i elt] w0.
    destruct (Runs_Get r (mock.mockGvk schemas) (Config.Name elt)
                (Config.Namespace elt) w0) as (v1 & w0' & G1).
    destruct v1 as [v|].
    - destruct (mock.Compare elt v) eqn:E.
      + exists (Some v), w0'. eapply Runs_conv.
        * eapply Runs_bind; [exact G1|]. simpl. rewrite E. simpl.
          unfold record_rev; simpl; rewrite ?E; apply Runs_ret.
        * done.
        * simpl. by rewrite read_back_failure_Some, E.
      + destruct (Runs_Error r t (Wanted elt (Some v)) w0') as (w0'' & G2).
        exists (Some v), w0''. eapply Runs_conv.
        * eapply Runs_bind; [exact G1|]. simpl. rewrite E. simpl.
          eapply Runs_bind; [exact G2|].
          unfold record_rev; simpl; rewrite ?E; apply Runs_ret.
        * done.
        * simpl. by rewrite read_back_failure_Some, E.
    - destruct (Runs_Error r t (Wanted elt None) w0') as (w0'' & G2).
      exists None, w0''. eapply Runs_conv.
      + eapply Runs_bind; [exact G1|]. simpl.
        eapply Runs_bind; [exact G2|]. apply Runs_ret.
      + done.
      + simpl. by rewrite read_back_failure_None. }
  exists k, got, w2. split; [done|].
  eapply Runs_conv.
  - eapply Runs_bind; [exact H1|exact H2].
  - simpl. apply concat_zip_with_singleton.
  - done.
Qed.

(** The keys of the entries still to visit are fresh in [revs]. *)
Lemma record_rev_lookup revs x v1 i rev :
  revs !! x.1 = None →
  record_rev revs x v1 !! i = Some rev
  ↔ (i = x.1 ∧ ∃ v, v1 = Some v ∧ mock.Compare x.2 v = true
                    ∧ rev = Config.ResourceVersion v)
    ∨ revs !! i = Some rev.
Proof.
  intros Hfresh. unfold record_rev. destruct v1 as [v|].
  - destruct (mock.Compare x.2 v) eqn:E.
    + destruct (decide (i = x.1)) as [->|Hne].
      * rewrite lookup_insert_eq. split.
        -- intros [= <-]. left. split; [done|]. by exists v.
        -- intros [(_ & v' & [= <-] & _ & ->)|?]; [done|congruence].
      * rewrite lookup_insert_ne by done. split; [by right|].
        by intros [[? _]|?].
    + split; [by right|]. intros [(_ & v' & [= <-] & ? & _)|?]; [|done].
      congruence.
  - split; [by right|]. by intros [(_ & v' & [=] & _)|?].
Qed.

Lemma recorded_revs_lookup_gen (l : list ((Z * Config.t) * option Config.t))
    (revs : gmap Z string) i rev :
  NoDup (l.*1.*1) → Forall (λ xv, revs !! xv.1.1 = None) l →
  foldl (λ revs xv, record_rev revs xv.1 xv.2) revs l !! i = Some rev
  ↔ (∃ f v, ((i, f), Some v) ∈ l ∧ mock.Compare f v = true
            ∧ rev = Config.ResourceVersion v)
    ∨ revs !! i = Some rev.
Proof.
  revert revs. induction l as [|[[j f] v1] l IH]; intros revs Hnodup Hfresh.
  - simpl. split; [by right|]. intros [(f & v & Hin & _)|?]; [|done].
    by apply elem_of_nil in Hin.
  - simpl in *. apply NoDup_cons in Hnodup as [Hj Hnodup].
    apply Forall_cons in Hfresh as [Hfj Hfresh]. simpl in Hfj.
    rewrite IH; [|done|].
    + rewrite (record_rev_lookup revs (j, f) v1 i rev Hfj). simpl. split.
      * intros [(f' & v & Hin & Hc & ->)|[(-> & v & -> & Hc & ->)|Hrev]].
        -- left. exists f', v. split; [by right|done].
        -- left. exists f, v. split; [by left|done].
        -- by right.
      * intros [(f' & v & Hin & Hc & ->)|Hrev]; [|by right; right].
        apply elem_of_cons in Hin as [[= -> -> <-]|Hin].
        -- right. left. split; [done|]. by exists v.
        -- left. by exists f', v.
    + apply Forall_forall. intros [[j' f'] v'] Hin. simpl.
      rewrite Forall_forall in Hfresh. specialize (Hfresh _ Hin).
      simpl in Hfresh.
      assert (j' ≠ j) as Hne.
      { intros ->. apply Hj. apply list_elem_of_fmap.
        exists (j, f'). split; [done|]. apply list_elem_of_fmap.
        by exists ((j, f'), v'). }
      unfold record_rev. simpl. destruct v1 as [v|]; [|done].
      destruct (mock.Compare f v); [|done].
      by rewrite lookup_insert_ne.
Qed.

Lemma recorded_revs_size_gen t (l : list ((Z * Config.t) * option Config.t))
    (revs : gmap Z string) :
  NoDup (l.*1.*1) → Forall (λ xv, revs !! xv.1.1 = None) l →
  (size (foldl (λ revs xv, record_rev revs xv.1 xv.2) revs l)
   + length (concat ((λ xv, read_back_failure t xv.1.2 xv.2) <$> l))
   = size revs + length l)%nat.
Proof.
  revert revs. induction l as [|[[j f] v1] l IH]; intros revs Hnodup Hfresh.
  - simpl. lia.
  - rewrite !fmap_cons in Hnodup. apply NoDup_cons in Hnodup as [Hj Hnodup].
    apply Forall_cons in Hfresh as [Hfj Hfresh].
    rewrite fmap_cons. cbn [foldl concat length fst snd] in *.
    rewrite length_app.
    assert (Forall (λ xv, record_rev revs (j, f) v1 !! xv.1.1 = None) l)
      as Hfresh'.
    { apply Forall_forall. intros [[j' f'] v'] Hin.
      rewrite Forall_forall in Hfresh. specialize (Hfresh _ Hin).
      cbn [fst snd] in *.
      assert (j' ≠ j) as Hne.
      { intros ->. apply Hj. apply list_elem_of_fmap.
        exists (j, f'). split; [done|]. apply list_elem_of_fmap.
        by exists ((j, f'), v'). }
      unfold record_rev. cbn [fst snd]. destruct v1 as [v|]; [|done].
      destruct (mock.Compare f v); [|done].
      by rewrite lookup_insert_ne. }
    specialize (IH _ Hnodup Hfresh').
    assert ((size (record_rev revs (j, f) v1)
             + length (read_back_failure t f v1) = S (size revs))%nat)
      as Hstep.
    { unfold record_rev. cbn [fst snd]. destruct v1 as [v|].
      - rewrite read_back_failure_Some. destruct (mock.Compare f v).
        + rewrite map_size_insert_None by done. simpl. lia.
        + simpl. lia.
      - rewrite read_back_failure_None. simpl. lia. }
    lia.
Qed.

Lemma fmap_zip_proj {A B C} (h : A → B → C) (l : list A) (k : list B) :
  (λ xv, h xv.1 xv.2) <$> zip l k = zip_with h l k.
Proof.
  revert k. induction l as [|x l IH]; intros [|y k]; simpl; f_equal; auto.
Qed.

Lemma zip_fst_keys {A B} (l : list A) (k : list B) :
  length k = length l → (zip l k).*1 = l.
Proof. intros H. apply fst_zip. lia. Qed.

(** X7. What read-back records: when the loop of [verifyConfigsInStore]
    ends, its local map [revs] holds, under the index of each fixture that
    was read back right, the revision of the resource the store returned,
    and nothing else; every fixture is accounted for, by a recorded
    revision or by a reported failure. *)
Theorem read_back_records (t : T) (elts : gmap Z Config.t) (w : World St) :
  ∃ ord got revs w',
    ord ≡ₚ map_to_list elts ∧ length got = length ord ∧
    Runs r (mock.verifyConfigsInStore_revs schemas rangeOrder r t elts) w revs
         (read_back_calls schemas ord got) (read_back_failures t ord got) w' ∧
    (∀ i rev, revs !! i = Some rev ↔
       ∃ f v, ((i, f), Some v) ∈ zip ord got ∧ elts !! i = Some f
              ∧ mock.Compare f v = true ∧ rev = Config.ResourceVersion v) ∧
    (size revs + length (read_back_failures t ord got) = size elts)%nat.
Proof.
  destruct (verifyConfigsInStore_revs_records t elts w)
    as (k & got & w' & Hlen & Hrun).
  set (ord := rangeOrder k elts) in *.
  assert (ord ≡ₚ map_to_list elts) as Hperm by apply rangeOrder_perm.
  assert (NoDup ((zip ord got).*1.*1)) as Hnodup.
  { rewrite zip_fst_keys by done. rewrite Hperm.
    apply NoDup_fst_map_to_list. }
  assert (Forall (λ xv : Z * Config.t * option Config.t,
            (∅ : gmap Z string) !! xv.1.1 = None) (zip ord got)) as Hfresh.
  { apply Forall_forall. intros. apply lookup_empty. }
  exists ord, got, (recorded_revs ord got), w'.
  split; [done|]. split; [done|]. split; [done|]. split.
  - intros i rev. unfold recorded_revs.
    rewrite (recorded_revs_lookup_gen _ ∅ i rev Hnodup Hfresh).
    rewrite lookup_empty. split.
    + intros [(f & v & Hin & Hc & ->)|?]; [|done].
      exists f, v. split; [done|]. split; [|done].
      apply elem_of_map_to_list. rewrite <- Hperm.
      apply (elem_of_zip_l _ _ _ _ Hin).
    + intros (f & v & Hin & _ & Hc & ->). left. by exists f, v.
  - pose proof (recorded_revs_size_gen t _ ∅ Hnodup Hfresh) as Hsize.
    rewrite map_size_empty, length_zip, Hlen, Nat.min_id in Hsize.
    unfold recorded_revs, read_back_failures.
    rewrite <- (length_map_to_list elts), <- Hperm.
    replace (zip_with (λ x v1, read_back_failure t x.2 v1) ord got)
      with ((λ xv : Z * Config.t * option Config.t,
               read_back_failure t xv.1.2 xv.2) <$> zip ord got).
    + exact Hsize.
    + apply (fmap_zip_proj (λ x v1, read_back_failure t x.2 v1)).
Qed.
End MoreReadBack.

(** ** Accounts of whole runs *)
Section ListFacts.
Context {A B C : Type}.

Lemma omap_zip_with_None {D} (h : C → option D) (g : A → B → C)
    (l : list A) (k : list B) :
  (∀ x y, h (g x y) = None) → omap h (zip_with g l k) = [].
Proof.
  intros Hh. revert k.
  induction l as [|x l IH]; intros [|y k]; simpl; try done.
  by rewrite Hh, IH.
Qed.

Lemma omap_zip_with_Some {D} (h : C → option D) (g : A → B → C) (p : A → D)
    (l : list A) (k : list B) :
  (∀ x y, h (g x y) = Some (p x)) → length k = length l →
  omap h (zip_with g l k) = p <$> l.
Proof.
  intros Hh. revert k.
  induction l as [|x l IH]; intros [|y k] Hlen; simpl; try done.
  rewrite Hh. f_equal. apply IH. by injection Hlen.
Qed.

Lemma length_zip_with_same (g : A → B → C) (l : list A) (k : list B) :
  length k = length l → length (zip_with g l k) = length l.
Proof. intros H. rewrite length_zip_with. lia. Qed.

Lemma concat_zip_with_nil_iff (g : A → B → list C) (l : list A)
    (k : list B) :
  length k = length l →
  concat (zip_with g l k) = [] ↔ Forall2 (λ x y, g x y = []) l k.
Proof.
  revert k. induction l as [|x l IH]; intros [|y k] Hlen; simpl; try done.
  injection Hlen as Hlen. rewrite app_nil, (IH k Hlen). split.
  - intros [? ?]. by constructor.
  - intros H. by inversion H.
Qed.

Lemma concat_fmap_nil_iff (g : B → list C) (k : list B) :
  concat (g <$> k) = [] ↔ Forall (λ y, g y = []) k.
Proof.
  induction k as [|y k IH]; [done|].
  rewrite fmap_cons. cbn [concat]. rewrite app_nil, IH. split.
  - intros [? ?]. by constructor.
  - intros H. by inversion H.
Qed.

Lemma length_concat_zip_with_le (g : A → B → list C) (m : nat) (l : list A)
    (k : list B) :
  (∀ x y, length (g x y) ≤ m)%nat →
  (length (concat (zip_with g l k)) ≤ m * length l)%nat.
Proof.
  intros Hg. revert k.
  induction l as [|x l IH]; intros [|y k]; simpl;
    rewrite ?Nat.mul_succ_r; try lia.
  rewrite length_app. specialize (Hg x y). specialize (IH k). lia.
Qed.

Lemma length_concat_fmap_le (g : B → list C) (m : nat) (k : list B) :
  (∀ y, length (g y) ≤ m)%nat →
  (length (concat (g <$> k)) ≤ m * length k)%nat.
Proof.
  intros Hg. induction k as [|y k IH]; [simpl; lia|].
  rewrite fmap_cons. cbn [concat length].
  rewrite length_app, Nat.mul_succ_r. specialize (Hg y). lia.
Qed.
End ListFacts.

Lemma app_self_nil {A} (l fs : list A) : l ++ fs = l ↔ fs = [].
Proof.
  split; [|intros ->; apply app_nil_r].
  intros H. apply (app_inv_head l). by rewrite app_nil_r.
Qed.

Section MoreRuns.
Import config2 testing.
Context {St : Type}.
Variable schemas : collections.t.
Variable rangeOrder : nat → gmap Z Config.t → list (Z * Config.t).
Hypothesis rangeOrder_perm : ∀ k elts, rangeOrder k elts ≡ₚ map_to_list elts.

#[local] Abbreviation mockGvk'' := (mock.mockGvk schemas).

Lemma fixture_identities namespace n (oc : list (Z * Config.t)) :
  oc ≡ₚ map_to_list (mock.createConfigs schemas namespace n) →
  (λ x, config_identity x.2) <$> oc
  ≡ₚ (λ i, (mockGvk'', "mock-config" +:+ pretty i, namespace)) <$> seqZ 0 n.
Proof.
  intros ->. rewrite createConfigs_to_list, <- list_fmap_compose. done.
Qed.

(** X8. A run of [CheckMapInvariant] on a store that has the mock kind
    cleans up after itself: the identities it submits to [Delete] are the
    identities of the fixtures [0 .. n-1], in this order, and the identities
    it submits to [Create] are these (in some order) and those of the three
    negative-case resources, which are never submitted to [Delete]. *)
Theorem created_are_deleted (r : model.ConfigStore St) (t : T)
    (namespace : string) (n : Z) (w : World St) :
  let '(s, s1) := model.Schemas r (store w) in
  if collection.FindByGroupVersionKind s mockGvk'' is Some _ then
    ∃ evs fs w',
      Runs r (mock.CheckMapInvariant schemas rangeOrder r t namespace n) w tt
           evs fs w' ∧
      deleted_ids evs
      = (λ i, (mockGvk'', "mock-config" +:+ pretty i, namespace))
          <$> seqZ 0 n ∧
      created_ids evs
      ≡ₚ deleted_ids evs
         ++ [config_identity Config.zero;
             config_identity (mock.invalid_config schemas "");
             config_identity (mock.missing_config schemas "")]
  else aborted (mock.CheckMapInvariant schemas rangeOrder r t namespace n w)
       = true.
Proof.
  pose proof (CheckMapInvariant_outcome schemas rangeOrder rangeOrder_perm
                r t namespace n w) as Hout.
  simpl in Hout.
  destruct (model.Schemas r (store w)) as [s s1].
  destruct (collection.FindByGroupVersionKind s mockGvk'');
    [|by rewrite Hout].
  destruct Hout as (oc & ov & res & w' & P1 & P2 & L1 & L2 & L3 & Hrun).
  eexists _, _, w'. split; [exact Hrun|].
  assert (deleted_ids
            (crud_calls schemas s namespace n oc ov "" "" res)
          = (λ i, (mockGvk'', "mock-config" +:+ pretty i, namespace))
              <$> seqZ 0 n) as Hdel.
  { unfold crud_calls, deleted_ids, delete_calls.
    change (EvSchemas s :: ?l) with ([EvSchemas s] ++ l).
    rewrite !omap_app.
    unfold create_calls, read_back_calls.
    rewrite (omap_zip_with_None _ (λ x b, EvCreate x.2 b)) by done.
    rewrite (omap_zip_with_None _ (λ x v1, read_back_call schemas x.2 v1))
      by done.
    rewrite (omap_zip_with_Some _ (delete_call schemas namespace)
               (λ i, (mockGvk'', "mock-config" +:+ pretty i, namespace)))
      by done.
    simpl. by rewrite app_nil_r. }
  split; [exact Hdel|]. rewrite Hdel.
  unfold crud_calls, created_ids, delete_calls.
  change (EvSchemas s :: ?l) with ([EvSchemas s] ++ l).
  rewrite !omap_app.
  unfold create_calls, read_back_calls.
  rewrite (omap_zip_with_Some _ (λ x b, EvCreate x.2 b)
             (λ x, config_identity x.2)) by done.
  rewrite (omap_zip_with_None _ (λ x v1, read_back_call schemas x.2 v1))
    by done.
  rewrite (omap_zip_with_None _ (delete_call schemas namespace)) by done.
  simpl. rewrite ?app_nil_r.
  by rewrite (fixture_identities namespace n oc P1).
Qed.

Lemma when_error_nil t err : when_error t err = [] ↔ err = None.
Proof. by destruct err. Qed.

Lemma unless_error_nil t msg (res : Config.t * option error) :
  unless_error t msg res = [] ↔ is_Some res.2.
Proof.
  unfold unless_error. destruct res.2 as [e|].
  - split; [by eexists|done].
  - split; [done|]. by intros [? ?].
Qed.

Lemma read_back_failure_nil t elt v1 :
  read_back_failure t elt v1 = [] ↔ read_back_ok elt v1.
Proof. unfold read_back_failure. by destruct (decide (read_back_ok elt v1)). Qed.

Lemma negative_failures_nil t neg :
  negative_failures t neg = [] ↔ negative_passes neg.
Proof.
  unfold negative_failures, assertError_failures, missing_failures,
    negative_passes.
  rewrite !app_nil, !unless_error_nil.
  destruct (listed_unscoped neg), (got_missing neg); intuition congruence.
Qed.

Lemma delete_failures_nil t errs l :
  delete_failures t errs l = [] ↔ Forall (λ err, err = None) errs ∧ l = [].
Proof.
  unfold delete_failures, empty_failure.
  rewrite app_nil, concat_fmap_nil_iff.
  setoid_rewrite when_error_nil.
  destruct l; split; by intros [? ?].
Qed.

Lemma crud_failures_nil t ov res :
  length (read_backs res) = length ov →
  crud_failures t ov res = [] ↔ crud_passes ov res.
Proof.
  intros Hlen. unfold crud_failures, crud_passes, create_failures,
    read_back_failures.
  rewrite !app_nil, concat_fmap_nil_iff, (concat_zip_with_nil_iff _ _ _ Hlen),
    negative_failures_nil, delete_failures_nil.
  setoid_rewrite when_error_nil.
  assert (Forall2 (λ x v1, read_back_failure t x.2 v1 = []) ov (read_backs res)
          ↔ Forall2 (λ x v1, read_back_ok x.2 v1) ov (read_backs res)) as ->.
  { split; intros H; (eapply Forall2_impl; [exact H|]); intros x v1;
      apply read_back_failure_nil. }
  tauto.
Qed.

(** X9. When a run of [CheckMapInvariant] passes: on a store that has the
    mock kind, the run reports no failure exactly when no [Create] of a
    fixture returned an error, every fixture was read back as a resource
    that [Compare]s equal to it, the six negative-case operations all
    returned an error, the unscoped [List] was empty and the missing
    resource was not found, no [Delete] returned an error, and the final
    [List] was empty. *)
Theorem CheckMapInvariant_passes_iff (r : model.ConfigStore St) (t : T)
    (namespace : string) (n : Z) (w : World St) :
  let '(s, s1) := model.Schemas r (store w) in
  if collection.FindByGroupVersionKind s mockGvk'' is Some _ then
    ∃ oc ov res w',
      oc ≡ₚ map_to_list (mock.createConfigs schemas namespace n) ∧
      ov ≡ₚ map_to_list (mock.createConfigs schemas namespace n) ∧
      length (creations res) = length oc ∧
      length (read_backs res) = length ov ∧
      length (deletions res) = length (seqZ 0 n) ∧
      Runs r (mock.CheckMapInvariant schemas rangeOrder r t namespace n) w tt
           (crud_calls schemas s namespace n oc ov "" "" res)
           (crud_failures t ov res) w' ∧
      (failures w' = failures w ↔ crud_passes ov res)
  else aborted (mock.CheckMapInvariant schemas rangeOrder r t namespace n w)
       = true.
Proof.
  pose proof (CheckMapInvariant_outcome schemas rangeOrder rangeOrder_perm
                r t namespace n w) as Hout.
  simpl in Hout.
  destruct (model.Schemas r (store w)) as [s s1].
  destruct (collection.FindByGroupVersionKind s mockGvk'');
    [|by rewrite Hout].
  destruct Hout as (oc & ov & res & w' & P1 & P2 & L1 & L2 & L3 & Hrun).
  exists oc, ov, res, w'. repeat (split; [done|]).
  rewrite (runs_failures _ _ _ _ _ _ _ Hrun), app_self_nil.
  by apply crud_failures_nil.
Qed.

(** X10. A run without fixtures: for [n] zero or negative, on a store that
    has the mock kind, [CheckMapInvariant] makes no [Create] of a fixture,
    no read-back and no [Delete]; it asks for the registry, runs the
    negative cases with the empty revision, and lists the namespace. *)
Theorem CheckMapInvariant_no_fixture (r : model.ConfigStore St) (t : T)
    (namespace : string) (n : Z) (w : World St) :
  n ≤ 0 →
  let '(s, s1) := model.Schemas r (store w) in
  if collection.FindByGroupVersionKind s mockGvk'' is Some _ then
    ∃ neg l w',
      Runs r (mock.CheckMapInvariant schemas rangeOrder r t namespace n) w tt
           (EvSchemas s
            :: negative_calls schemas "" "" neg
            ++ [EvList mockGvk'' namespace l])
           (negative_failures t neg ++ empty_failure t l) w'
  else aborted (mock.CheckMapInvariant schemas rangeOrder r t namespace n w)
       = true.
Proof.
  intros Hn.
  pose proof (CheckMapInvariant_outcome schemas rangeOrder rangeOrder_perm
                r t namespace n w) as Hout.
  simpl in Hout.
  destruct (model.Schemas r (store w)) as [s s1].
  destruct (collection.FindByGroupVersionKind s mockGvk'');
    [|by rewrite Hout].
  destruct Hout as (oc & ov & res & w' & P1 & P2 & L1 & L2 & L3 & Hrun).
  assert (mock.createConfigs schemas namespace n = ∅) as Hempty.
  { by apply createConfigs_empty_iff. }
  rewrite Hempty, map_to_list_empty in P1, P2.
  apply Permutation_nil_r in P1, P2. subst oc ov.
  assert (seqZ 0 n = []) as Hseq.
  { apply length_zero_iff_nil. rewrite length_seqZ. lia. }
  rewrite Hseq in L3.
  destruct res as [cr rb neg del rem]. simpl in *.
  destruct cr; [|done]. destruct rb; [|done]. destruct del; [|done].
  exists neg, rem, w'. eapply Runs_conv; [exact Hrun|..].
  - unfold crud_calls, delete_calls. simpl. by rewrite Hseq.
  - unfold crud_failures. simpl. done.
Qed.


Lemma length_when_error t err : (length (when_error t err) ≤ 1)%nat.
Proof. destruct err; simpl; lia. Qed.

Lemma length_unless_error t msg (res : Config.t * option error) :
  (length (unless_error t msg res) ≤ 1)%nat.
Proof. unfold unless_error. destruct res.2; simpl; lia. Qed.

Lemma length_read_back_failure t elt v1 :
  (length (read_back_failure t elt v1) ≤ 1)%nat.
Proof.
  unfold read_back_failure. destruct (decide (read_back_ok elt v1)); simpl; lia.
Qed.

Lemma length_negative_failures t neg :
  (length (negative_failures t neg) ≤ 8)%nat.
Proof.
  unfold negative_failures, assertError_failures, missing_failures.
  rewrite !length_app.
  pose proof (length_unless_error t "expected error posting invalid object"
                (on_zero neg).1).
  pose proof (length_unless_error t "expected error updating invalid object"
                (on_zero neg).2).
  pose proof (length_unless_error t "expected error posting invalid object"
                (on_invalid neg).1).
  pose proof (length_unless_error t "expected error updating invalid object"
                (on_invalid neg).2).
  pose proof (length_unless_error t "expected error posting invalid object"
                (on_missing neg).1).
  pose proof (length_unless_error t "expected error updating invalid object"
                (on_missing neg).2).
  destruct (listed_unscoped neg), (got_missing neg); simpl; lia.
Qed.

(** X11. The size of a run: on a store that has the mock kind,
    [CheckMapInvariant] makes exactly [3 n + 10] store calls for [n]
    fixtures, reports at most [3 n + 9] failures, and calls [Update] on
    nothing but the zero-value, the invalid and the missing resource: no
    fixture is ever updated. *)
Theorem CheckMapInvariant_size (r : model.ConfigStore St) (t : T)
    (namespace : string) (n : Z) (w : World St) :
  let '(s, s1) := model.Schemas r (store w) in
  if collection.FindByGroupVersionKind s mockGvk'' is Some _ then
    ∃ evs fs w',
      Runs r (mock.CheckMapInvariant schemas rangeOrder r t namespace n) w tt
           evs fs w' ∧
      length evs = (3 * Z.to_nat n + 10)%nat ∧
      (length fs ≤ 3 * Z.to_nat n + 9)%nat ∧
      Forall (updates_negative_only schemas) evs
  else aborted (mock.CheckMapInvariant schemas rangeOrder r t namespace n w)
       = true.
Proof.
  pose proof (CheckMapInvariant_outcome schemas rangeOrder rangeOrder_perm
                r t namespace n w) as Hout.
  simpl in Hout.
  destruct (model.Schemas r (store w)) as [s s1].
  destruct (collection.FindByGroupVersionKind s mockGvk'');
    [|by rewrite Hout].
  destruct Hout as (oc & ov & res & w' & P1 & P2 & L1 & L2 & L3 & Hrun).
  assert (length oc = Z.to_nat n) as Hoc.
  { rewrite P1, length_map_to_list. apply createConfigs_size_nat. }
  assert (length ov = Z.to_nat n) as Hov.
  { rewrite P2, length_map_to_list. apply createConfigs_size_nat. }
  rewrite length_seqZ in L3.
  eexists _, _, w'. split; [exact Hrun|]. split; [|split].
  - unfold crud_calls, create_calls, read_back_calls, delete_calls.
    cbn [length]. rewrite !length_app, !length_zip_with, length_seqZ.
    simpl. lia.
  - unfold crud_failures, create_failures, read_back_failures,
      delete_failures, empty_failure.
    rewrite !length_app.
    pose proof (length_concat_fmap_le (λ b : Config.t * option error,
                  when_error t b.2) 1 (creations res)
                  (λ b, length_when_error t b.2)).
    pose proof (length_concat_zip_with_le
                  (λ (x : Z * Config.t) v1, read_back_failure t x.2 v1) 1 ov
                  (read_backs res)
                  (λ x v1, length_read_back_failure t x.2 v1)).
    pose proof (length_negative_failures t (negatives res)).
    pose proof (length_concat_fmap_le (when_error t) 1 (deletions res)
                  (length_when_error t)).
    destruct (remaining res); simpl; lia.
  - unfold crud_calls, create_calls, read_back_calls, delete_calls.
    constructor; [done|].
    apply Forall_app_2; [by apply Forall_zip_with_intro|].
    apply Forall_app_2; [by apply Forall_zip_with_intro|].
    apply Forall_app_2.
    + unfold negative_calls, assertError_calls, missing_calls.
      repeat constructor; simpl; set_solver.
    + apply Forall_app_2; [by apply Forall_zip_with_intro|].
      by repeat constructor.
Qed.

Lemma append_not_self (t s : string) : s ≠ "" → t +:+ s ≠ t.
Proof.
  intros Hs. induction t as [|a t IH]; simpl; [done|].
  intros [= H]. by apply IH.
Qed.

Lemma case_failures_subtest t c res :
  Forall (λ f, f.1 = t +:+ "/" +:+ mock.name c) (case_failures t c res)
  ∧ (length (case_failures t c res) ≤ 3)%nat.
Proof.
  unfold case_failures.
  destruct (created res).2, (listed res), (stored res); simpl;
    split; repeat constructor.
Qed.

Lemma case_failures_nil t c res :
  case_failures t c res = [] ↔ case_passes res.
Proof.
  unfold case_failures, case_passes.
  destruct (created res).2, (listed res), (stored res); simpl;
    split; try done; try (intros (? & ? & ?); done);
    try (intros (? & ? & [? ?]); done).
Qed.

Lemma case_failures_subtests t (l : list mock.case) (res : list case_results) :
  Forall (λ f, f.1 ≠ t ∧ ∃ c, c ∈ l ∧ f.1 = t +:+ "/" +:+ mock.name c)
         (concat (zip_with (case_failures t) l res)).
Proof.
  revert res. induction l as [|c l IH]; intros [|x res]; simpl;
    try by constructor.
  apply Forall_app_2.
  - eapply Forall_impl; [apply case_failures_subtest|].
    intros f ->. split; [by apply append_not_self|].
    exists c. split; [by left|done].
  - eapply Forall_impl; [apply IH|].
    intros f [Hne (c' & Hin & Heq)]. split; [done|].
    exists c'. split; [by right|done].
Qed.

(** X12. The size of typed ingestion: [CheckIstioConfigTypes] makes exactly
    fifteen store calls, none of them an [Update] or a [Delete] (what it
    creates stays in the store), and reports at most fifteen failures, each
    to the sub-test of one of its five cases and none to the test it was
    given. *)
Theorem CheckIstioConfigTypes_size (r : model.ConfigStore St)
    (namespace : string) (t : T) (w : World St) :
  ∃ evs fs w',
    Runs r (mock.CheckIstioConfigTypes schemas r namespace t) w tt evs fs w' ∧
    length evs = 15%nat ∧
    Forall keeps_resources evs ∧
    (length fs ≤ 15)%nat ∧
    Forall (λ f, f.1 ≠ t ∧ ∃ c, c ∈ mock.cases schemas
                                ∧ f.1 = t +:+ "/" +:+ mock.name c) fs.
Proof.
  destruct (CheckIstioConfigTypes_runs r schemas namespace t w)
    as (res & w' & Hlen & Hrun).
  eexists _, _, w'. split; [exact Hrun|].
  destruct res as [|r1 [|r2 [|r3 [|r4 [|r5 [|r6 res]]]]]]; try done.
  split; [done|]. split; [by repeat constructor|]. split.
  - pose proof (length_concat_zip_with_le (case_failures t) 3
                  (mock.cases schemas) [r1; r2; r3; r4; r5]
                  (λ c res, proj2 (case_failures_subtest t c res))) as H.
    simpl in H. simpl. lia.
  - apply case_failures_subtests.
Qed.

Lemma Forall2_ignore_left {A B} (P : A → B → Prop) (Q : B → Prop)
    (l : list A) (k : list B) :
  length k = length l → (∀ x y, P x y ↔ Q y) →
  Forall2 P l k ↔ Forall Q k.
Proof.
  intros Hlen HPQ. revert k Hlen.
  induction l as [|x l IH]; intros [|y k] Hlen; simpl in Hlen; try done.
  injection Hlen as Hlen. split.
  - intros H. inversion H; subst. constructor; [by apply (HPQ x)|].
    by apply IH.
  - intros H. inversion H; subst. constructor; [by apply HPQ|].
    by apply IH.
Qed.

(** X13. When typed ingestion passes: [CheckIstioConfigTypes] reports no
    failure exactly when, for each of the five kinds, [Create] returned no
    error, [List] returned at least one resource and [Get] returned a
    resource. *)
Theorem CheckIstioConfigTypes_passes_iff (r : model.ConfigStore St)
    (namespace : string) (t : T) (w : World St) :
  ∃ res w',
    length res = 5%nat ∧
    Runs r (mock.CheckIstioConfigTypes schemas r namespace t) w tt
         (concat (zip_with (case_calls namespace) (mock.cases schemas) res))
         (concat (zip_with (case_failures t) (mock.cases schemas) res)) w' ∧
    (failures w' = failures w ↔ Forall case_passes res).
Proof.
  destruct (CheckIstioConfigTypes_runs r schemas namespace t w)
    as (res & w' & Hlen & Hrun).
  exists res, w'. split; [done|]. split; [done|].
  rewrite (runs_failures _ _ _ _ _ _ _ Hrun), app_self_nil.
  rewrite (concat_zip_with_nil_iff _ _ _ Hlen).
  apply Forall2_ignore_left; [done|]. intros c x. apply case_failures_nil.
Qed.

(** X14. [getFirstRevision] makes no store call and reports nothing; on
    the empty map it returns the empty string, and on a map whose entries
    all carry the revision [v] it returns [v], whatever the order of the
    loop. *)
Theorem getFirstRevision_uniform (r : model.ConfigStore St)
    (elts : gmap Z Config.t) (w : World St) :
  ∃ rev w',
    Runs r (mock.getFirstRevision rangeOrder elts) w rev [] [] w' ∧
    store w' = store w ∧
    (elts = ∅ → rev = "") ∧
    (∀ v, elts ≠ ∅ → map_Forall (λ _ f, Config.ResourceVersion f = v) elts →
          rev = v).
Proof.
  destruct (getFirstRevision_runs r rangeOrder elts w) as (k & w' & Hrun).
  exists (first_revision (rangeOrder k elts)), w'. split; [done|].
  split.
  { destruct Hrun as [_ _ _ Hr]. by inversion Hr. }
  destruct (first_revision_borrowed elts (rangeOrder k elts)
              (rangeOrder_perm k elts)) as [[-> ->]|(i & f & Hf & ->)].
  - split; [done|]. by intros v Hne.
  - split.
    + intros ->. by rewrite lookup_empty in Hf.
    + intros v _ Hall. by apply (Hall i f).
Qed.

Lemma Replay_reads (r : model.ConfigStore St) s evs s' :
  (∀ typ name namespace s0, (model.Get r typ name namespace s0).2 = s0) →
  Forall (λ ev, ∃ typ name namespace res,
            ev = EvGet typ name namespace res) evs →
  Replay r s evs s' → s' = s.
Proof.
  intros Hget Hall Hr. induction Hr as [|s ev s1 evs s2 Hstep Hr IH]; [done|].
  apply Forall_cons in Hall as [(typ & name & namespace & res & ->) Hall].
  simpl in Hstep. rewrite (IH Hall).
  by rewrite <- (Hget typ name namespace s), Hstep.
Qed.

(** X15. Read-back does not change a store whose [Get] does not: on a
    store whose [Get] leaves the state as it was, [verifyConfigsInStore]
    makes nothing but [Get] calls and ends in the state it started in. *)
Theorem read_back_preserves_store (r : model.ConfigStore St) (t : T)
    (elts : gmap Z Config.t) (w : World St) :
  (∀ typ name namespace s, (model.Get r typ name namespace s).2 = s) →
  ∃ evs fs w',
    Runs r (mock.verifyConfigsInStore schemas rangeOrder r t elts) w tt
         evs fs w' ∧
    Forall (λ ev, ∃ typ name namespace res,
              ev = EvGet typ name namespace res) evs ∧
    store w' = store w.
Proof.
  intros Hget.
  destruct (verifyConfigsInStore_runs r schemas rangeOrder t elts w)
    as (k & got & w' & Hlen & Hrun).
  assert (Forall (λ ev, ∃ typ name namespace res,
                    ev = EvGet typ name namespace res)
            (read_back_calls schemas (rangeOrder k elts) got)) as Hall.
  { apply Forall_zip_with_intro. intros x v1. by eexists _, _, _, _. }
  eexists _, _, w'. split; [exact Hrun|]. split; [exact Hall|].
  exact (Replay_reads r _ _ _ Hget Hall
           (runs_replay _ _ _ _ _ _ _ Hrun)).
Qed.
End MoreRuns.

(** ** The accounts, on the in-memory store *)
Section MoreExamples.
Import config2 testing.

Lemma read_back_records_witness :
  (∀ k elts, example.order k elts ≡ₚ map_to_list elts) ∧
  ∃ ord got revs w',
    ord ≡ₚ map_to_list (mock.createConfigs example.schemas "ns1" 2) ∧
    Runs memory.store
      (mock.verifyConfigsInStore_revs example.schemas example.order
         memory.store "TestStore" (mock.createConfigs example.schemas "ns1" 2))
      (example.populated "ns1" 2) revs
      (read_back_calls example.schemas ord got)
      (read_back_failures "TestStore" ord got) w' ∧
    (size revs + length (read_back_failures "TestStore" ord got)
     = size (mock.createConfigs example.schemas "ns1" 2))%nat.
Proof.
  split; [intros; reflexivity|].
  destruct (read_back_records memory.store example.schemas example.order
              ltac:(intros; reflexivity) "TestStore"
              (mock.createConfigs example.schemas "ns1" 2)
              (example.populated "ns1" 2))
    as (ord & got & revs & w' & Hperm & _ & Hrun & _ & Hsize).
  by exists ord, got, revs, w'.
Defined.

Lemma created_are_deleted_witness :
  (∀ k elts, example.order k elts ≡ₚ map_to_list elts) ∧
  ∃ evs fs w',
    Runs memory.store
      (mock.CheckMapInvariant example.schemas example.order memory.store
         "TestStore" "ns1" 2) (example.world example.schemas) tt evs fs w' ∧
    deleted_ids evs
    = (λ i, (mock.mockGvk example.schemas, "mock-config" +:+ pretty i, "ns1"))
        <$> seqZ 0 2 ∧
    created_ids evs
    ≡ₚ deleted_ids evs
       ++ [config_identity Config.zero;
           config_identity (mock.invalid_config example.schemas "");
           config_identity (mock.missing_config example.schemas "")].
Proof.
  split; [intros; reflexivity|].
  exact (created_are_deleted example.schemas example.order
           ltac:(intros; reflexivity) memory.store "TestStore" "ns1" 2
           (example.world example.schemas)).
Defined.

Lemma CheckMapInvariant_passes_iff_witness :
  (∀ k elts, example.order k elts ≡ₚ map_to_list elts) ∧
  ∃ ov res w',
    Runs memory.store
      (mock.CheckMapInvariant example.schemas example.order memory.store
         "TestStore" "ns1" 2) (example.world example.schemas) tt
      (calls w') (crud_failures "TestStore" ov res) w' ∧
    (failures w' = [] ↔ crud_passes ov res).
Proof.
  split; [intros; reflexivity|].
  destruct (CheckMapInvariant_passes_iff example.schemas example.order
              ltac:(intros; reflexivity) memory.store "TestStore" "ns1" 2
              (example.world example.schemas))
    as (oc & ov & res & w' & _ & _ & _ & _ & _ & Hrun & Hiff).
  exists ov, res, w'. split; [|exact Hiff].
  eapply Runs_conv; [exact Hrun| |done].
  by rewrite (runs_calls _ _ _ _ _ _ _ Hrun).
Defined.

Lemma CheckMapInvariant_no_fixture_witness :
  (∀ k elts, example.order k elts ≡ₚ map_to_list elts) ∧ 0 ≤ 0 ∧
  ∃ neg l w',
    Runs memory.store
      (mock.CheckMapInvariant example.schemas example.order memory.store
         "TestStore" "ns1" 0) (example.world example.schemas) tt
      (EvSchemas (example.registry example.schemas)
       :: negative_calls example.schemas "" "" neg
       ++ [EvList (mock.mockGvk example.schemas) "ns1" l])
      (negative_failures "TestStore" neg ++ empty_failure "TestStore" l) w'.
Proof.
  split; [intros; reflexivity|]. split; [lia|].
  exact (CheckMapInvariant_no_fixture example.schemas example.order
           ltac:(intros; reflexivity) memory.store "TestStore" "ns1" 0
           (example.world example.schemas) ltac:(lia)).
Defined.

Lemma CheckMapInvariant_size_witness :
  (∀ k elts, example.order k elts ≡ₚ map_to_list elts) ∧
  ∃ evs fs w',
    Runs memory.store
      (mock.CheckMapInvariant example.schemas example.order memory.store
         "TestStore" "ns1" 2) (example.world example.schemas) tt evs fs w' ∧
    length evs = (3 * Z.to_nat 2 + 10)%nat ∧
    (length fs ≤ 3 * Z.to_nat 2 + 9)%nat ∧
    Forall (updates_negative_only example.schemas) evs.
Proof.
  split; [intros; reflexivity|].
  exact (CheckMapInvariant_size example.schemas example.order
           ltac:(intros; reflexivity) memory.store "TestStore" "ns1" 2
           (example.world example.schemas)).
Defined.

Lemma read_back_preserves_store_witness :
  (∀ typ name namespace s,
     (model.Get memory.store typ name namespace s).2 = s) ∧
  ∃ evs fs w',
    Runs memory.store
      (mock.verifyConfigsInStore example.schemas example.order memory.store
         "TestStore" (mock.createConfigs example.schemas "ns1" 2))
      (example.populated "ns1" 2) tt evs fs w' ∧
    store w' = store (example.populated "ns1" 2).
Proof.
  split; [intros; reflexivity|].
  destruct (read_back_preserves_store example.schemas example.order
              memory.store "TestStore"
              (mock.createConfigs example.schemas "ns1" 2)
              (example.populated "ns1" 2) ltac:(intros; reflexivity))
    as (evs & fs & w' & Hrun & _ & Hstore).
  by exists evs, fs, w'.
Defined.

Lemma getFirstRevision_uniform_witness :
  (∀ k elts, example.order k elts ≡ₚ map_to_list elts) ∧
  ∃ rev w',
    Runs memory.store
      (mock.getFirstRevision example.order
         (mock.createConfigs example.schemas "ns1" 2))
      (example.populated "ns1" 2) rev [] [] w' ∧
    store w' = store (example.populated "ns1" 2).
Proof.
  split; [intros; reflexivity|].
  destruct (getFirstRevision_uniform example.order
              ltac:(intros; reflexivity) memory.store
              (mock.createConfigs example.schemas "ns1" 2)
              (example.populated "ns1" 2))
    as (rev & w' & Hrun & Hstore & _).
  by exists rev, w'.
Defined.
End MoreExamples.
